(** * The pull-request validation daemon of barcode_validator

    A shallow embedding of [src/barcode_validator/daemon.py] and the
    properties of its reconciliation loop.

    The daemon polls the open pull requests of a repository, and for each
    one that touches a FASTA file runs the validation pipeline once,
    recording its progress in an SQLite table [prs].  The embedding keeps
    the code's structure: every Python function is a computation in a
    state-and-exception monad over

    - the outside world (GitHub, git, the file system, the validator, the
      wall clock), reached only through the oracles of an [Env];
    - the table [prs], a finite map from PR number to its row;
    - the trace of observable events (log lines, SQL statements, HTTP
      posts) in the order the code performs them. *)

From Stdlib Require Import ZArith String Ascii List Lia Sorted.
From stdpp Require Import base option list gmap strings.

Local Open Scope Z_scope.

(** ** Python values the daemon handles *)

(** Exceptions (subclasses of Python's [Exception]) that the collaborators
    or the interpreter may raise. *)
Inductive exn : Type :=
  | ConnectionError
  | JSONDecodeError
  | TypeError
  | FileNotFoundError
  | PermissionError
  | OtherException (name : string).

(** The result of evaluating a Python expression: a value, or a raised
    exception. *)
Inductive outcome (A : Type) : Type :=
  | Returns (a : A)
  | Raises (e : exn).
Arguments Returns {A} a.
Arguments Raises {A} e.

(** What [response.json()] yields for the two listing endpoints: the JSON
    array GitHub sends on success, or a JSON object (GitHub's error body,
    [{"message": ..., "documentation_url": ...}]), of which Python iterates
    the keys. *)
Inductive json_list (A : Type) : Type :=
  | Array (items : list A)
  | Object (keys : list string).
Arguments Array {A} items.
Arguments Object {A} keys.

(** A pull request as the daemon reads it: [pr['number']] and
    [pr['head']['ref']]. *)
Record pull : Type := { number : Z; head_ref : string }.

(** A changed file as the daemon reads it: [f['filename']] and
    [f['raw_url']]. *)
Record changed_file : Type := { filename : string; raw_url : string }.

(** A row of the table [prs (pr_number INTEGER PRIMARY KEY, status TEXT,
    last_updated TIMESTAMP)], without its key. *)
Record row : Type := { status : string; last_updated : Z }.

(** The table [prs]: at most one row per PR number. *)
Abbreviation store := (gmap Z row).

(** [len(x)] and [for item in x] on a parsed listing. *)
Definition py_len {A} (x : json_list A) : nat :=
  match x with
  | Array items => length items
  | Object keys => length keys
  end.

Definition py_iter {A} (x : json_list A) : list (A + string) :=
  match x with
  | Array items => map inl items
  | Object keys => map inr keys
  end.

(** ** Strings *)

Definition nl : string := String (ascii_of_nat 10) EmptyString.
Definition slash : ascii := ascii_of_nat 47.

(** [s.endswith(suffix)] *)
Fixpoint endswith (s suffix : string) : bool :=
  String.eqb s suffix ||
  match s with
  | EmptyString => false
  | String _ s' => endswith s' suffix
  end.

(** The tuple of suffixes both call sites pass to [endswith]. *)
Definition fasta_suffixes : list string :=
  [".fasta"; ".fa"; ".fas"]%string.

(** [f['filename'].endswith(('.fasta', '.fa', '.fas'))] *)
Definition is_fasta (f : changed_file) : bool :=
  existsb (endswith (filename f)) fasta_suffixes.

(** [os.path.dirname] (posixpath): everything up to and including the last
    slash, with trailing slashes removed unless the head is all slashes. *)
Fixpoint has_slash (s : string) : bool :=
  match s with
  | EmptyString => false
  | String c s' => Ascii.eqb c slash || has_slash s'
  end.

Fixpoint head_of (s : string) : string :=
  match s with
  | EmptyString => EmptyString
  | String c s' => if has_slash s then String c (head_of s') else EmptyString
  end.

Fixpoint all_slashes (s : string) : bool :=
  match s with
  | EmptyString => true
  | String c s' => Ascii.eqb c slash && all_slashes s'
  end.

Fixpoint rstrip_slash (s : string) : string :=
  match s with
  | EmptyString => EmptyString
  | String c s' =>
      let r := rstrip_slash s' in
      if Ascii.eqb c slash && String.eqb r EmptyString then EmptyString
      else String c r
  end.

Definition dirname (p : string) : string :=
  let head := head_of p in
  if negb (String.eqb head EmptyString) && negb (all_slashes head)
  then rstrip_slash head
  else head.

(** ** Observable events *)

(** The daemon's log messages, with the values their f-strings format. *)
Inductive message : Type :=
  | Checking_for_open_PRs
  | Found_open_PRs (count : nat)
  | Inspecting_files (pr_number : Z)
  | Found_files (count : nat) (pr_number : Z)
  | Validating (file : string)
  | Validation_complete (file : string)
  | Failed_to_fetch (file : string) (status_code : Z)
  | Error_processing (pr_number : Z) (e : exn).

(** What the daemon does that can be observed: its log lines, the SQL
    statements it commits, the comments it posts (with the answer: a
    status code, or the exception raised) and its sleeps.  Two markers
    record the calls of [process_pr] and of [run_validation] with their
    arguments; they stand for no effect of their own. *)
Inductive event : Type :=
  | Info (m : message)                                (* logging.info *)
  | Error (m : message)                               (* logging.error *)
  | Sql_select (pr_number : Z)
  | Sql_insert_or_replace (pr_number : Z) (st : string) (ts : Z)
  | Sql_update (pr_number : Z) (st : string) (ts : Z)
  | Enter_process_pr (pr_number : Z) (branch : string)
  | Enter_run_validation (pr_number : Z) (branch : string)
  | Http_post (pr_number : Z) (body : string) (response : outcome Z)
  | Sleep (seconds : Z).

(** ** The outside world *)

(** The collaborators of the daemon, as oracles over a world [W].  [R] is
    the type of the validator's result objects.  Each oracle answers from
    the current world and yields the next one. *)
Record Env (W R : Type) : Type := {
  (* datetime.now() *)
  clock : W -> Z;
  (* requests.get(.../pulls).json() *)
  api_open_prs : W -> outcome (json_list pull) * W;
  (* requests.get(.../pulls/{pr_number}/files).json() *)
  api_pr_files : Z -> W -> outcome (json_list changed_file) * W;
  (* os.chdir(repo_location) *)
  os_chdir : W -> outcome unit * W;
  (* subprocess.run(['git', 'fetch', 'origin', f'{branch}:pr-{pr_number}']):
     the return code of git, or the exception of a failed launch *)
  git_fetch : string -> Z -> W -> outcome Z * W;
  (* subprocess.run(['git', 'checkout', f'pr-{pr_number}']) *)
  git_checkout : Z -> W -> outcome Z * W;
  (* requests.get(file_url): status code and content *)
  requests_get : string -> W -> outcome (Z * string) * W;
  (* os.makedirs(path, exist_ok=True) for a non-empty path *)
  os_mkdir : string -> W -> outcome unit * W;
  (* open(filename, 'wb') and f.write(content) *)
  write_file : string -> string -> W -> outcome unit * W;
  (* validator.validate_fasta(filename) *)
  validate_fasta : string -> W -> outcome (list R) * W;
  (* result.calculate_ranks(verbosity=3), each component as str() *)
  calculate_ranks : R -> outcome (string * string * string);
  (* requests.post(.../issues/{pr_number}/comments): the status code *)
  requests_post : Z -> string -> W -> outcome Z * W;
  (* time.sleep(seconds) *)
  time_sleep : Z -> W -> W
}.
Arguments clock {W R} _ _.
Arguments api_open_prs {W R} _ _.
Arguments api_pr_files {W R} _ _ _.
Arguments os_chdir {W R} _ _.
Arguments git_fetch {W R} _ _ _ _.
Arguments git_checkout {W R} _ _ _.
Arguments requests_get {W R} _ _ _.
Arguments os_mkdir {W R} _ _ _.
Arguments write_file {W R} _ _ _ _.
Arguments validate_fasta {W R} _ _ _.
Arguments calculate_ranks {W R} _ _.
Arguments requests_post {W R} _ _ _ _.
Arguments time_sleep {W R} _ _ _.

(** ** Program state and the monad of daemon code *)

Record state (W : Type) : Type := {
  world : W;
  db : store;
  trace : list event
}.
Arguments world {W} _.
Arguments db {W} _.
Arguments trace {W} _.
Arguments Build_state {W} _ _ _.

Definition with_world {W} (st : state W) (w : W) : state W :=
  {| world := w; db := db st; trace := trace st |}.
Definition with_db {W} (st : state W) (d : store) : state W :=
  {| world := world st; db := d; trace := trace st |}.
Definition with_event {W} (st : state W) (ev : event) : state W :=
  {| world := world st; db := db st; trace := trace st ++ [ev] |}.

(** A computation runs from a state to an outcome and a state; the state
    survives a raised exception (every SQL statement is committed at once). *)
Definition M (W A : Type) : Type := state W -> outcome A * state W.

Definition ret {W A} (a : A) : M W A := fun st => (Returns a, st).

Definition raise {W A} (e : exn) : M W A := fun st => (Raises e, st).

Definition bind {W A B} (m : M W A) (k : A -> M W B) : M W B :=
  fun st =>
    match m st with
    | (Returns a, st') => k a st'
    | (Raises e, st') => (Raises e, st')
    end.

(** [try: body  except Exception as e: handler(e)] *)
Definition try_except {W A} (body : M W A) (handler : exn -> M W A) : M W A :=
  fun st =>
    match body st with
    | (Returns a, st') => (Returns a, st')
    | (Raises e, st') => handler e st'
    end.

Declare Scope daemon_scope.
Delimit Scope daemon_scope with daemon.
Notation "x <- m ;; k" := (bind m (fun x => k))
  (at level 100, m at next level, right associativity) : daemon_scope.
Notation "m ;; k" := (bind m (fun _ => k))
  (at level 100, right associativity) : daemon_scope.
Local Open Scope daemon_scope.

(** A call to a collaborator. *)
Definition call {W A} (oracle : W -> outcome A * W) : M W A :=
  fun st => let '(r, w) := oracle (world st) in (r, with_world st w).

Definition emit {W} (ev : event) : M W unit :=
  fun st => (Returns tt, with_event st ev).

(** [for x in xs: body(x)] *)
Fixpoint for_each {W A} (xs : list A) (body : A -> M W unit) : M W unit :=
  match xs with
  | [] => ret tt
  | x :: xs' => body x ;; for_each xs' body
  end.

(** Subscripting an element of a parsed listing with a string key: an
    element of an array is the expected object; an element of an object is
    one of its keys, a [str], and [str[...]] with a string index raises
    [TypeError]. *)
Definition subscript {W A B} (x : A + string) (field : A -> B) : M W B :=
  match x with
  | inl a => ret (field a)
  | inr _ => raise TypeError
  end.

(** ** The daemon *)

(** [CREATE TABLE IF NOT EXISTS prs ...] on the database file, which either
    holds the table already or does not exist yet. *)
Definition setup_database (file : option store) : store :=
  match file with
  | Some table => table
  | None => ∅
  end.

Definition POLL_INTERVAL : Z := 300.

Section Daemon.
Context {W R : Type} (E : Env W R).

Definition datetime_now : M W Z :=
  fun st => (Returns (clock E (world st)), st).

(** The three SQL statements below are taken to succeed: the errors of
    [sqlite3] and of the binding of their parameters are not part of this
    model. *)

(** [SELECT status FROM prs WHERE pr_number = ?] and [fetchone()]:
    [None], or the status of the row. *)
Definition select_status (pr_number : Z) : M W (option string) :=
  fun st => (Returns (status <$> db st !! pr_number),
             with_event st (Sql_select pr_number)).

(** [INSERT OR REPLACE INTO prs (pr_number, status, last_updated)
    VALUES (?, s, ?)] and [commit()]. *)
Definition insert_or_replace (pr_number : Z) (s : string) (ts : Z) : M W unit :=
  fun st =>
    (Returns tt,
     with_event
       (with_db st (<[pr_number := {| status := s; last_updated := ts |}]> (db st)))
       (Sql_insert_or_replace pr_number s ts)).

(** [UPDATE prs SET status = s, last_updated = ? WHERE pr_number = ?] and
    [commit()]: changes the row if there is one. *)
Definition update (pr_number : Z) (s : string) (ts : Z) : M W unit :=
  fun st =>
    (Returns tt,
     with_event
       (with_db st
          (alter (fun _ => {| status := s; last_updated := ts |}) pr_number (db st)))
       (Sql_update pr_number s ts)).

Definition get_open_prs : M W (json_list pull) :=
  call (api_open_prs E).

Definition get_pr_files (pr_number : Z) : M W (json_list changed_file) :=
  call (api_pr_files E pr_number).

(** [os.makedirs(path, exist_ok=True)]: the empty path, which
    [os.path.dirname] gives for a file name without a directory, is
    refused by [mkdir] with [FileNotFoundError]. *)
Definition os_makedirs (path : string) : M W unit :=
  if String.eqb path EmptyString then raise FileNotFoundError
  else call (os_mkdir E path).

(** [[f for f in files if f['filename'].endswith(...)]]: the first key of
    an object is a [str], whose subscript raises. *)
Definition fasta_only (files : json_list changed_file) : M W (list changed_file) :=
  match files with
  | Array items => ret (List.filter is_fasta items)
  | Object [] => ret []
  | Object (_ :: _) => raise TypeError
  end.

(** The body of the loop over [fasta_files]. *)
Definition validate_file (file : changed_file) (all_results : list (string * R))
  : M W (list (string * R)) :=
  response <- call (requests_get E (raw_url file)) ;;
  if fst response =? 200 then
    os_makedirs (dirname (filename file)) ;;
    call (write_file E (filename file) (snd response)) ;;
    emit (Info (Validating (filename file))) ;;
    results <- call (validate_fasta E (filename file)) ;;
    emit (Info (Validation_complete (filename file))) ;;
    ret (all_results ++ map (pair (filename file)) results)
  else
    emit (Error (Failed_to_fetch (filename file) (fst response))) ;;
    ret all_results.

Fixpoint validate_files (fasta_files : list changed_file)
    (all_results : list (string * R)) : M W (list (string * R)) :=
  match fasta_files with
  | [] => ret all_results
  | file :: rest =>
      all_results' <- validate_file file all_results ;;
      validate_files rest all_results'
  end.

(** The two [subprocess.run] calls after [os.chdir]: neither passes
    [check=True], so the return codes are dropped. *)
Definition fetch_pr (pr_number : Z) (branch : string) : M W unit :=
  call (os_chdir E) ;;
  _ <- call (git_fetch E branch pr_number) ;;
  _ <- call (git_checkout E pr_number) ;;
  ret tt.

Definition run_validation (pr_number : Z) (branch : string)
  : M W (list (string * R)) :=
  emit (Enter_run_validation pr_number branch) ;;
  fetch_pr pr_number branch ;;
  files <- get_pr_files pr_number ;;
  fasta_files <- fasta_only files ;;
  validate_files fasta_files [].

(** The comment text that [post_comment] builds. *)
Fixpoint render (results : list (string * R)) (comment : string) : outcome string :=
  match results with
  | [] => Returns comment
  | (file, result) :: rest =>
      match calculate_ranks E result with
      | Returns (barcode_rank, full_rank, messages) =>
          render rest
            (comment +:+ "### " +:+ file +:+ nl
                     +:+ "Barcode Rank: " +:+ barcode_rank +:+ nl
                     +:+ "Full Rank: " +:+ full_rank +:+ nl
                     +:+ "Messages:" +:+ nl +:+ messages +:+ nl +:+ nl)%string
      | Raises e => Raises e
      end
  end.

Definition comment_header : string :=
  ("## Validation Results" +:+ nl +:+ nl)%string.

(** [requests.post(url, headers=headers, json=payload)]: the response is
    dropped. *)
Definition http_post (pr_number : Z) (comment : string) : M W unit :=
  fun st =>
    let '(r, w) := requests_post E pr_number comment (world st) in
    (match r with Returns _ => Returns tt | Raises e => Raises e end,
     with_event (with_world st w) (Http_post pr_number comment r)).

Definition post_comment (pr_number : Z) (results : list (string * R)) : M W unit :=
  match render results comment_header with
  | Returns comment => http_post pr_number comment
  | Raises e => raise e
  end.

(** [row is None or row[0] == 'pending'] *)
Definition admitted (row : option string) : bool :=
  match row with
  | None => true
  | Some s => String.eqb s "pending"
  end.

Definition process_pr (pr_number : Z) (branch : string) : M W unit :=
  emit (Enter_process_pr pr_number branch) ;;
  row <- select_status pr_number ;;
  if admitted row then
    try_except
      (now <- datetime_now ;;
       insert_or_replace pr_number "processing" now ;;
       results <- run_validation pr_number branch ;;
       post_comment pr_number results ;;
       now <- datetime_now ;;
       update pr_number "completed" now)
      (fun e =>
         emit (Error (Error_processing pr_number e)) ;;
         now <- datetime_now ;;
         update pr_number "error" now)
  else ret tt.

(** [any(f['filename'].endswith(...) for f in files)] *)
Definition any_fasta (files : json_list changed_file) : M W bool :=
  match files with
  | Array items => ret (existsb is_fasta items)
  | Object [] => ret false
  | Object (_ :: _) => raise TypeError
  end.

(** The body of [for pr in prs] in [main]. *)
Definition inspect (pr : pull + string) : M W unit :=
  pr_number <- subscript pr number ;;
  emit (Info (Inspecting_files pr_number)) ;;
  files <- get_pr_files pr_number ;;
  emit (Info (Found_files (py_len files) pr_number)) ;;
  selected <- any_fasta files ;;
  if selected then
    branch <- subscript pr head_ref ;;
    process_pr pr_number branch
  else ret tt.

Definition sleep (seconds : Z) : M W unit :=
  fun st => (Returns tt,
             with_event (with_world st (time_sleep E seconds (world st)))
                        (Sleep seconds)).

(** The body of [while True] in [main]: one reconciliation cycle. *)
Definition cycle : M W unit :=
  emit (Info Checking_for_open_PRs) ;;
  prs <- get_open_prs ;;
  emit (Info (Found_open_PRs (py_len prs))) ;;
  for_each (py_iter prs) inspect ;;
  sleep POLL_INTERVAL.

(** [while True], cut after the given number of cycles: [Returns tt] says
    the loop is still running then, [Raises e] that an exception left
    [main] and ended the daemon. *)
Fixpoint main_loop (cycles : nat) : M W unit :=
  match cycles with
  | O => ret tt
  | S n => cycle ;; main_loop n
  end.

End Daemon.

(** ** Concrete worlds

    A scripted world for examples: the world is the wall clock, every call
    to a collaborator takes one second, a sleep takes as long as asked,
    and the answers are fixed by a [script]. *)
Module Scripted.

Record script : Type := {
  open_prs : outcome (json_list pull);
  pr_files : Z -> outcome (json_list changed_file);
  chdir : outcome unit;
  fetch : outcome Z;
  checkout : outcome Z;
  get : string -> outcome (Z * string);
  mkdir : string -> outcome unit;
  write : string -> outcome unit;
  validate : string -> outcome (list string);
  ranks : string -> outcome (string * string * string);
  post : outcome Z
}.

Definition env (s : script) : Env Z string := {|
  clock := fun w => w;
  api_open_prs := fun w => (open_prs s, w + 1);
  api_pr_files := fun n w => (pr_files s n, w + 1);
  os_chdir := fun w => (chdir s, w + 1);
  git_fetch := fun _ _ w => (fetch s, w + 1);
  git_checkout := fun _ w => (checkout s, w + 1);
  requests_get := fun url w => (get s url, w + 1);
  os_mkdir := fun path w => (mkdir s path, w + 1);
  write_file := fun name _ w => (write s name, w + 1);
  validate_fasta := fun name w => (validate s name, w + 1);
  calculate_ranks := ranks s;
  requests_post := fun _ _ w => (post s, w + 1);
  time_sleep := fun seconds w => w + Z.max 0 seconds
|}.

Definition start (now : Z) (table : store) : state Z :=
  {| world := now; db := table; trace := [] |}.

(** One open pull request, #42 on branch [add-seqs], changing
    [data/seq1.fasta], [data/seq2.txt] and [data/seq3.fas]; the third
    is answered 404; the validator finds one record per file. *)
Definition pr42 : pull := {| number := 42; head_ref := "add-seqs" |}.

Definition files42 : list changed_file :=
  [ {| filename := "data/seq1.fasta"; raw_url := "raw/seq1" |};
    {| filename := "data/seq2.txt"; raw_url := "raw/seq2" |};
    {| filename := "data/seq3.fas"; raw_url := "raw/seq3" |} ].

Definition healthy : script := {|
  open_prs := Returns (Array [pr42]);
  pr_files := fun _ => Returns (Array files42);
  chdir := Returns tt;
  fetch := Returns 0;
  checkout := Returns 0;
  get := fun url => if String.eqb url "raw/seq3" then Returns (404, "")
                    else Returns (200, ">s1");
  mkdir := fun _ => Returns tt;
  write := fun _ => Returns tt;
  validate := fun name => Returns [("result of " +:+ name)%string];
  ranks := fun r => Returns ("1", "2", r);
  post := Returns 201
|}.

(** The same, but git fails: [git fetch] exits with 128 and
    [git checkout] with 1. *)
Definition git_fails : script := {|
  open_prs := open_prs healthy;
  pr_files := pr_files healthy;
  chdir := Returns tt;
  fetch := Returns 128;
  checkout := Returns 1;
  get := get healthy;
  mkdir := mkdir healthy;
  write := write healthy;
  validate := validate healthy;
  ranks := ranks healthy;
  post := Returns 201
|}.

(** The same, but the local clone is missing: [os.chdir] raises. *)
Definition no_clone : script := {|
  open_prs := open_prs healthy;
  pr_files := pr_files healthy;
  chdir := Raises FileNotFoundError;
  fetch := Returns 0;
  checkout := Returns 0;
  get := get healthy;
  mkdir := mkdir healthy;
  write := write healthy;
  validate := validate healthy;
  ranks := ranks healthy;
  post := Returns 201
|}.

(** The same, but the comment cannot be posted: [requests.post]
    raises. *)
Definition post_unreachable : script := {|
  open_prs := open_prs healthy;
  pr_files := pr_files healthy;
  chdir := Returns tt;
  fetch := Returns 0;
  checkout := Returns 0;
  get := get healthy;
  mkdir := mkdir healthy;
  write := write healthy;
  validate := validate healthy;
  ranks := ranks healthy;
  post := Raises ConnectionError
|}.

(** GitHub cannot be reached: listing the open requests raises. *)
Definition offline : script := {|
  open_prs := Raises ConnectionError;
  pr_files := fun _ => Raises ConnectionError;
  chdir := Returns tt;
  fetch := Returns 0;
  checkout := Returns 0;
  get := fun _ => Raises ConnectionError;
  mkdir := mkdir healthy;
  write := write healthy;
  validate := validate healthy;
  ranks := ranks healthy;
  post := Raises ConnectionError
|}.

(** GitHub refuses the token: both listings are answered 401 with an
    error object instead of an array. *)
Definition unauthorized : script := {|
  open_prs := Returns (Object ["message"; "documentation_url"; "status"]);
  pr_files := fun _ => Returns (Object ["message"; "documentation_url"; "status"]);
  chdir := Returns tt;
  fetch := Returns 0;
  checkout := Returns 0;
  get := fun _ => Returns (401, "");
  mkdir := mkdir healthy;
  write := write healthy;
  validate := validate healthy;
  ranks := ranks healthy;
  post := Returns 401
|}.

(** The same as [healthy], but the validator finds two records in each
    file. *)
Definition two_records : script := {|
  open_prs := open_prs healthy;
  pr_files := pr_files healthy;
  chdir := Returns tt;
  fetch := Returns 0;
  checkout := Returns 0;
  get := get healthy;
  mkdir := mkdir healthy;
  write := write healthy;
  validate := fun _ => Returns ["first record"; "second record"]%string;
  ranks := ranks healthy;
  post := Returns 201
|}.

(** Request 42 of the specification's example: [seq1.fasta],
    [seq2.txt] and [seq3.fas] at the root of the repository. *)
Definition root_files42 : list changed_file :=
  [ {| filename := "seq1.fasta"; raw_url := "raw/seq1" |};
    {| filename := "seq2.txt"; raw_url := "raw/seq2" |};
    {| filename := "seq3.fas"; raw_url := "raw/seq3" |} ].

Definition at_root : script := {|
  open_prs := open_prs healthy;
  pr_files := fun _ => Returns (Array root_files42);
  chdir := Returns tt;
  fetch := Returns 0;
  checkout := Returns 0;
  get := get healthy;
  mkdir := mkdir healthy;
  write := write healthy;
  validate := validate healthy;
  ranks := ranks healthy;
  post := Returns 201
|}.

(** The same as [healthy], but every fetch of a file is answered 404. *)
Definition all_missing : script := {|
  open_prs := open_prs healthy;
  pr_files := pr_files healthy;
  chdir := Returns tt;
  fetch := Returns 0;
  checkout := Returns 0;
  get := fun _ => Returns (404, EmptyString);
  mkdir := mkdir healthy;
  write := write healthy;
  validate := validate healthy;
  ranks := ranks healthy;
  post := Returns 201
|}.

(** Two open requests: #42 as before, and #43 on branch [docs], which
    changes [README.md] only. *)
Definition pr43 : pull := {| number := 43; head_ref := "docs" |}.

Definition files43 : list changed_file :=
  [ {| filename := "README.md"; raw_url := "raw/readme" |} ].

Definition two_requests : script := {|
  open_prs := Returns (Array [pr42; pr43]);
  pr_files := fun n => if n =? 43 then Returns (Array files43)
                       else Returns (Array files42);
  chdir := Returns tt;
  fetch := Returns 0;
  checkout := Returns 0;
  get := get healthy;
  mkdir := mkdir healthy;
  write := write healthy;
  validate := validate healthy;
  ranks := ranks healthy;
  post := Returns 201
|}.

End Scripted.

(** * The vocabulary of the properties *)

(** ** Events *)

(** The events that write to the table. *)
Definition is_write (ev : event) : bool :=
  match ev with
  | Sql_insert_or_replace _ _ _ | Sql_update _ _ _ => true
  | _ => false
  end.

(** The events of a cycle in which no request is processed. *)
Definition is_idle (ev : event) : bool :=
  match ev with
  | Info _ | Sleep _ | Enter_process_pr _ _ | Sql_select _ => true
  | _ => false
  end.

(** The events of the pipeline: its entry, its log lines and its post. *)
Definition from_pipeline (ev : event) : bool :=
  match ev with
  | Info _ | Error _ | Enter_run_validation _ _ | Http_post _ _ _ => true
  | _ => false
  end.

(** The log lines. *)
Definition is_log (ev : event) : bool :=
  match ev with
  | Info _ | Error _ => true
  | _ => false
  end.

(** The event is a log line, or it names request [n]: no other request
    and no sleep. *)
Definition keyed_by (n : Z) (ev : event) : Prop :=
  match ev with
  | Info _ | Error _ => True
  | Sql_select m | Sql_insert_or_replace m _ _ | Sql_update m _ _
  | Enter_process_pr m _ | Enter_run_validation m _ | Http_post m _ _ => m = n
  | Sleep _ => False
  end.

(** The key and the row that a write event stores. *)
Definition written (ev : event) : option (Z * row) :=
  match ev with
  | Sql_insert_or_replace n s t | Sql_update n s t =>
      Some (n, {| status := s; last_updated := t |})
  | _ => None
  end.

(** The timestamp that a write event stores. *)
Definition write_time (ev : event) : option Z :=
  match written ev with
  | Some (_, r) => Some (last_updated r)
  | None => None
  end.

(** The timestamps of the writes in a trace, oldest first. *)
Definition write_times (tr : list event) : list Z := omap write_time tr.

(** The event of entering the pipeline. *)
Definition starts_pipeline (ev : event) : bool :=
  match ev with
  | Enter_run_validation _ _ => true
  | _ => false
  end.

(** The request that an entry into [process_pr] is called with. *)
Definition entered (ev : event) : option (Z * string) :=
  match ev with
  | Enter_process_pr n b => Some (n, b)
  | _ => None
  end.

(** The requests handed to [process_pr], in the order of the calls. *)
Definition selections (tr : list event) : list (Z * string) := omap entered tr.

(** ** Tables *)

(** The statuses that the daemon writes. *)
Definition daemon_status (s : string) : Prop :=
  s = "processing"%string \/ s = "completed"%string \/ s = "error"%string.

(** A table as the daemon leaves it: every row has one of its statuses. *)
Definition daemon_table (table : store) : Prop :=
  forall n r, table !! n = Some r -> daemon_status (status r).

(** If the event is a write, it stores one of the daemon's statuses. *)
Definition writes_daemon_status (ev : event) : Prop :=
  forall n r, written ev = Some (n, r) -> daemon_status (status r).

(** The stored status lets [process_pr] in: there is no row, or the row
    says ['pending']. *)
Definition absent_or_pending (table : store) (n : Z) : Prop :=
  table !! n = None \/ status <$> table !! n = Some "pending"%string.

(** ** Requests and files *)

(** The Work Item Extractor as the specification words it: of the open
    requests, in the order given, those with at least one changed file
    whose path ends with a recognised suffix, as pairs of identifier and
    revision. *)
Definition extract (files_of : Z -> list changed_file) (prs : list pull)
  : list (Z * string) :=
  map (fun pr => (number pr, head_ref pr))
      (List.filter (fun pr => existsb is_fasta (files_of (number pr))) prs).

(** The candidate content files among the changed files of a request. *)
Definition candidates (files : list changed_file) : list changed_file :=
  List.filter is_fasta files.

(** The fetch of a file is answered 200, [code] being the status code of
    the answer. *)
Definition fetched (code : changed_file -> Z) (f : changed_file) : bool :=
  code f =? 200.

(** One entry per result of each fetched file. *)
Definition outcomes {R} (code : changed_file -> Z)
    (results_of : changed_file -> list R) (fs : list changed_file)
  : list (string * R) :=
  flat_map (fun f => map (pair (filename f)) (results_of f))
           (List.filter (fetched code) fs).

(** What the loop over the candidates logs. *)
Definition validation_events (code : changed_file -> Z) (fs : list changed_file)
  : list event :=
  flat_map
    (fun f =>
       if fetched code f
       then [Info (Validating (filename f)); Info (Validation_complete (filename f))]
       else [Error (Failed_to_fetch (filename f) (code f))])
    fs.

(** The part of the comment that [post_comment] writes for one result of
    [file], from the ranks and messages of its summary. *)
Definition section_text (file : string) (ranks : string * string * string)
  : string :=
  let '(barcode_rank, full_rank, messages) := ranks in
  ("### " +:+ file +:+ nl
   +:+ "Barcode Rank: " +:+ barcode_rank +:+ nl
   +:+ "Full Rank: " +:+ full_rank +:+ nl
   +:+ "Messages:" +:+ nl +:+ messages +:+ nl +:+ nl)%string.

(** ** Worlds and runs *)

(** The world with the exit statuses of git masked: every completed run
    of git reports 0. *)
Definition drop_exit_status {W R} (E : Env W R) : Env W R := {|
  clock := clock E;
  api_open_prs := api_open_prs E;
  api_pr_files := api_pr_files E;
  os_chdir := os_chdir E;
  git_fetch := fun b n w =>
    match git_fetch E b n w with
    | (Returns _, w') => (Returns 0, w')
    | (Raises e, w') => (Raises e, w')
    end;
  git_checkout := fun n w =>
    match git_checkout E n w with
    | (Returns _, w') => (Returns 0, w')
    | (Raises e, w') => (Raises e, w')
    end;
  requests_get := requests_get E;
  os_mkdir := os_mkdir E;
  write_file := write_file E;
  validate_fasta := validate_fasta E;
  calculate_ranks := calculate_ranks E;
  requests_post := requests_post E;
  time_sleep := time_sleep E
|}.

Section Vocabulary.
Context {W R : Type} (E : Env W R).

(** One step of the world: a call to any collaborator. *)
Inductive env_step : W -> W -> Prop :=
  | step_open_prs w : env_step w (snd (api_open_prs E w))
  | step_pr_files n w : env_step w (snd (api_pr_files E n w))
  | step_chdir w : env_step w (snd (os_chdir E w))
  | step_git_fetch b n w : env_step w (snd (git_fetch E b n w))
  | step_git_checkout n w : env_step w (snd (git_checkout E n w))
  | step_get url w : env_step w (snd (requests_get E url w))
  | step_mkdir p w : env_step w (snd (os_mkdir E p w))
  | step_write f c w : env_step w (snd (write_file E f c w))
  | step_validate f w : env_step w (snd (validate_fasta E f w))
  | step_post n c w : env_step w (snd (requests_post E n c w))
  | step_sleep s w : env_step w (time_sleep E s w).

(** The wall clock never goes back while the collaborators work. *)
Definition clock_monotone : Prop :=
  forall w w', env_step w w' -> clock E w <= clock E w'.

(** A request the remote lists as open in some world. *)
Definition listed (n : Z) : Prop :=
  exists w prs pr,
    fst (api_open_prs E w) = Returns (Array prs) /\ In pr prs /\ number pr = n.

(** A request that [main] can select: the remote lists it as open in
    some world and, in some world, lists a FASTA file among its changed
    files. *)
Definition selectable (n : Z) : Prop :=
  listed n /\
  exists w files,
    fst (api_pr_files E n w) = Returns (Array files) /\
    existsb is_fasta files = true.

(** The remote answers the listing of a request's files with
    [files_of], whenever asked. *)
Definition files_listed (files_of : Z -> list changed_file) (pr : pull) : Prop :=
  forall w, fst (api_pr_files E (number pr) w) = Returns (Array (files_of (number pr))).

(** [m] keeps the invariant [I], however it ends. *)
Definition preserved {A} (I : state W -> Prop) (m : M W A) : Prop :=
  forall st, I st -> I (snd (m st)).

(** The state in which [process_pr] consults the admission check. *)
Definition checked (n : Z) (b : string) (st : state W) : state W :=
  with_event (with_event st (Enter_process_pr n b)) (Sql_select n).

(** The state in which an admitted [process_pr] starts the pipeline:
    the row says ['processing'] since now. *)
Definition claimed (n : Z) (b : string) (st : state W) : state W :=
  snd (insert_or_replace n "processing" (clock E (world st)) (checked n b st)).

(** The pipeline of an admitted call: validation, then the comment. *)
Definition pipeline (n : Z) (b : string) : M W unit :=
  results <- run_validation E n b ;; post_comment E n results.

(** How an admitted call ends, from the state and outcome of its
    pipeline. *)
Definition settled (n : Z) (r : outcome unit) (st : state W) : state W :=
  match r with
  | Returns _ => snd (update n "completed" (clock E (world st)) st)
  | Raises e =>
      snd (update n "error" (clock E (world st))
             (with_event st (Error (Error_processing n e))))
  end.

(** [run_validation] after its first event. *)
Definition validation_body (n : Z) (b : string) : M W (list (string * R)) :=
  fetch_pr E n b ;;
  files <- get_pr_files E n ;;
  fasta_files <- fasta_only files ;;
  validate_files E fasta_files [].

(** The trace only grows. *)
Definition extends (t0 : list event) (st : state W) : Prop :=
  exists evs, trace st = t0 ++ evs.

(** Materialising the branch raises [e] and leaves the world [w']:
    [os.chdir] raises, or launching [git fetch] does, or launching
    [git checkout] does. *)
Inductive checkout_raises (n : Z) (b : string) (w : W) (e : exn) (w' : W) : Prop :=
  | chdir_raises :
      os_chdir E w = (Raises e, w') -> checkout_raises n b w e w'
  | git_fetch_raises u w1 :
      os_chdir E w = (Returns u, w1) ->
      git_fetch E b n w1 = (Raises e, w') -> checkout_raises n b w e w'
  | git_checkout_raises u w1 rc w2 :
      os_chdir E w = (Returns u, w1) ->
      git_fetch E b n w1 = (Returns rc, w2) ->
      git_checkout E n w2 = (Raises e, w') -> checkout_raises n b w e w'.

(** The state of a cycle after it has listed the open requests. *)
Definition listed_state (st : state W) (prs : json_list pull) (w : W) : state W :=
  with_event (with_world (with_event st (Info Checking_for_open_PRs)) w)
             (Info (Found_open_PRs (py_len prs))).

(** A listing fails in the cycle that starts in [st], with exception [e]
    and in state [st']: listing the open requests raises, or is answered
    by an error object, whose first key cannot be subscripted; or, after
    the requests [before] have been inspected, listing the files of the
    next request does. *)
Inductive listing_fails (st : state W) : exn -> state W -> Prop :=
  | open_prs_raises e w :
      api_open_prs E (world st) = (Raises e, w) ->
      listing_fails st e
        {| world := w; db := db st;
           trace := trace st ++ [Info Checking_for_open_PRs] |}
  | open_prs_error_object k keys w :
      api_open_prs E (world st) = (Returns (Object (k :: keys)), w) ->
      listing_fails st TypeError
        {| world := w; db := db st;
           trace := trace st ++ [Info Checking_for_open_PRs;
                                 Info (Found_open_PRs (S (length keys)))] |}
  | pr_files_raises before pr after w1 st1 e w2 :
      api_open_prs E (world st) = (Returns (Array (before ++ pr :: after)), w1) ->
      for_each (map inl before) (inspect E)
        (listed_state st (Array (before ++ pr :: after)) w1) = (Returns tt, st1) ->
      api_pr_files E (number pr) (world st1) = (Raises e, w2) ->
      listing_fails st e
        {| world := w2; db := db st1;
           trace := trace st1 ++ [Info (Inspecting_files (number pr))] |}
  | pr_files_error_object before pr after w1 st1 k keys w2 :
      api_open_prs E (world st) = (Returns (Array (before ++ pr :: after)), w1) ->
      for_each (map inl before) (inspect E)
        (listed_state st (Array (before ++ pr :: after)) w1) = (Returns tt, st1) ->
      api_pr_files E (number pr) (world st1) = (Returns (Object (k :: keys)), w2) ->
      listing_fails st TypeError
        {| world := w2; db := db st1;
           trace := trace st1 ++ [Info (Inspecting_files (number pr));
                                  Info (Found_files (S (length keys)) (number pr))] |}.

(** Nothing but single fetches goes wrong: the branch is materialised
    (git may exit with any status), the remote lists [files], answers
    the fetch of each candidate with [code] and [content], every fetched
    file lies in a directory, which can be made, the file can be saved
    and the validator returns [results_of] it, and the POST is
    answered. *)
Record pipeline_runs (n : Z) (b : string) (files : list changed_file)
    (code : changed_file -> Z) (content : changed_file -> string)
    (results_of : changed_file -> list R) : Prop := {
  runs_chdir : forall w, fst (os_chdir E w) = Returns tt;
  runs_git_fetch : forall w, exists rc, fst (git_fetch E b n w) = Returns rc;
  runs_git_checkout : forall w, exists rc, fst (git_checkout E n w) = Returns rc;
  runs_files : forall w, fst (api_pr_files E n w) = Returns (Array files);
  runs_get : forall f w, In f (candidates files) ->
    fst (requests_get E (raw_url f) w) = Returns (code f, content f);
  runs_dirname : forall f, In f (candidates files) -> fetched code f = true ->
    dirname (filename f) <> EmptyString;
  runs_mkdir : forall f w, In f (candidates files) -> fetched code f = true ->
    fst (os_mkdir E (dirname (filename f)) w) = Returns tt;
  runs_write : forall f w, In f (candidates files) -> fetched code f = true ->
    fst (write_file E (filename f) (content f) w) = Returns tt;
  runs_validate : forall f w, In f (candidates files) -> fetched code f = true ->
    fst (validate_fasta E (filename f) w) = Returns (results_of f);
  runs_post : forall c w,
    exists response, fst (requests_post E n c w) = Returns response
}.

(** ** The invariants of the loop *)

(** [I] holds and the row of request [n] says ['processing']. *)
Definition while_processing (I : state W -> Prop) (n : Z) (st : state W) : Prop :=
  I st /\ status <$> db st !! n = Some "processing"%string.

(** Every row and every write carries one of the daemon's statuses. *)
Definition statuses_invariant (st : state W) : Prop :=
  daemon_table (db st) /\ Forall writes_daemon_status (trace st).

(** The timestamps written so far are in order and not in the future. *)
Definition timestamps_invariant (st : state W) : Prop :=
  StronglySorted Z.le (write_times (trace st)) /\
  Forall (fun t => t <= clock E (world st)) (write_times (trace st)).

(** The row [r] of request [n] is in the table and no write addresses it. *)
Definition completed_row_invariant (n : Z) (r : row) (st : state W) : Prop :=
  db st !! n = Some r /\
  Forall (fun ev => forall r', written ev <> Some (n, r')) (trace st).

(** The row [r] of request [n] is in the table and the pipeline has not
    been entered for [n]. *)
Definition completed_quiet_invariant (n : Z) (r : row) (st : state W) : Prop :=
  db st !! n = Some r /\
  Forall (fun ev => forall b, ev <> Enter_run_validation n b) (trace st).

(** Since the trace was [t0], every event traced is a log line or names
    request [n]. *)
Definition keyed_after (n : Z) (t0 : list event) (st : state W) : Prop :=
  exists evs, trace st = t0 ++ evs /\ Forall (keyed_by n) evs.

(** The table is [table] and only idle events are traced. *)
Definition idle_invariant (table : store) (st : state W) : Prop :=
  db st = table /\ Forall (fun ev => is_idle ev = true) (trace st).

(** The requests handed to [process_pr] so far are [l]. *)
Definition selections_are (l : list (Z * string)) (st : state W) : Prop :=
  selections (trace st) = l.

(** Since the trace was [t0], the table is still [d] and only log lines
    have been traced. *)
Definition logged_after (t0 : list event) (d : store) (st : state W) : Prop :=
  db st = d /\
  exists evs, trace st = t0 ++ evs /\ Forall (fun ev => is_log ev = true) evs.

End Vocabulary.

Arguments runs_chdir {W R E n b files code content results_of} _ _.
Arguments runs_git_fetch {W R E n b files code content results_of} _ _.
Arguments runs_git_checkout {W R E n b files code content results_of} _ _.
Arguments runs_files {W R E n b files code content results_of} _ _.
Arguments runs_get {W R E n b files code content results_of} _ _ _ _.
Arguments runs_dirname {W R E n b files code content results_of} _ _ _ _.
Arguments runs_mkdir {W R E n b files code content results_of} _ _ _ _ _.
Arguments runs_write {W R E n b files code content results_of} _ _ _ _ _.
Arguments runs_validate {W R E n b files code content results_of} _ _ _ _ _.
Arguments runs_post {W R E n b files code content results_of} _ _ _.

(** * Properties *)

(** ** Strings *)

Lemma endswith_spec (s suffix : string) :
  endswith s suffix = true <-> exists prefix, s = (prefix +:+ suffix)%string.
Proof.
  induction s as [|c s IH]; cbn [endswith].
  - rewrite orb_false_r, String.eqb_eq. split.
    + intros <-. now exists EmptyString.
    + intros [[|c p] Hp]; [exact Hp | discriminate Hp].
  - rewrite orb_true_iff, String.eqb_eq, IH. split.
    + intros [<- | [p ->]]; [now exists EmptyString | now exists (String c p)].
    + intros [[|c' p] Hp]; [left; exact Hp | right].
      change (String c s = String c' (p +:+ suffix)%string) in Hp.
      injection Hp as _ ->. now exists p.
Qed.

Lemma is_fasta_spec (f : changed_file) :
  is_fasta f = true <->
  exists suffix prefix,
    In suffix fasta_suffixes /\ filename f = (prefix +:+ suffix)%string.
Proof.
  unfold is_fasta. rewrite existsb_exists. split.
  - intros (suffix & Hin & H). apply endswith_spec in H as [prefix H]. eauto.
  - intros (suffix & prefix & Hin & H). exists suffix. split; [exact Hin|].
    apply endswith_spec. eauto.
Qed.

(** ** Events *)

Lemma from_pipeline_no_write ev : from_pipeline ev = true -> is_write ev = false.
Proof. now destruct ev. Qed.

(** ** Invariants of daemon code *)

Section Preservation.
Context {W R : Type} (E : Env W R).

Section Combinators.
Context (I : state W -> Prop).

Lemma preserved_ret {A} (a : A) : preserved I (ret a).
Proof. intros st H. exact H. Qed.

Lemma preserved_raise {A} (e : exn) : preserved I (@raise W A e).
Proof. intros st H. exact H. Qed.

Lemma preserved_bind_val {A B} (m : M W A) (k : A -> M W B) :
  preserved I m ->
  (forall a st, I st -> fst (m st) = Returns a ->
                I (snd (m st)) -> I (snd (k a (snd (m st))))) ->
  preserved I (bind m k).
Proof.
  intros Hm Hk st H. unfold bind.
  specialize (Hm st H). pose proof (fun a => Hk a st H) as Hk'.
  destruct (m st) as [[a|e] st']; simpl in *; auto.
Qed.

Lemma preserved_bind {A B} (m : M W A) (k : A -> M W B) :
  preserved I m -> (forall a, preserved I (k a)) -> preserved I (bind m k).
Proof.
  intros Hm Hk. apply preserved_bind_val; [exact Hm|].
  intros a st _ _ H. now apply Hk.
Qed.

Lemma preserved_try_except {A} (body : M W A) (handler : exn -> M W A) :
  preserved I body -> (forall e, preserved I (handler e)) ->
  preserved I (try_except body handler).
Proof.
  intros Hb Hh st H. unfold try_except. specialize (Hb st H).
  destruct (body st) as [[a|e] st']; simpl in *; [exact Hb|].
  now apply Hh.
Qed.

Lemma preserved_for_each {A} (xs : list A) (body : A -> M W unit) :
  (forall x, In x xs -> preserved I (body x)) ->
  preserved I (for_each xs body).
Proof.
  induction xs as [|x xs IH]; intros Hb; simpl.
  - apply preserved_ret.
  - apply preserved_bind; [apply Hb; now left|].
    intros _. apply IH. intros y Hy. apply Hb. now right.
Qed.

Lemma preserved_subscript {A B} (x : A + string) (field : A -> B) :
  preserved I (subscript x field).
Proof. destruct x; [apply preserved_ret | apply preserved_raise]. Qed.

Lemma preserved_datetime_now : preserved I (datetime_now E).
Proof. intros st H. exact H. Qed.

(** The invariant survives the steps of the world and the events in
    [ok]. *)
Context (ok : event -> Prop).
Hypothesis stable_world :
  forall st w, env_step E (world st) w -> I st -> I (with_world st w).
Hypothesis stable_event :
  forall st ev, ok ev -> I st -> I (with_event st ev).

Lemma preserved_call {A} (oracle : W -> outcome A * W) :
  (forall w, env_step E w (snd (oracle w))) -> preserved I (call oracle).
Proof.
  intros Hstep st H. unfold call. specialize (Hstep (world st)).
  destruct (oracle (world st)) as [r w]. simpl in *.
  now apply stable_world.
Qed.

Lemma preserved_emit (ev : event) : ok ev -> preserved I (emit ev).
Proof. intros Hok st H. now apply stable_event. Qed.

Lemma preserved_get_open_prs : preserved I (get_open_prs E).
Proof. apply preserved_call. constructor. Qed.

Lemma preserved_get_pr_files n : preserved I (get_pr_files E n).
Proof. apply preserved_call. constructor. Qed.

Lemma preserved_sleep s : ok (Sleep s) -> preserved I (sleep E s).
Proof.
  intros Hok st H. unfold sleep. simpl.
  apply (stable_event (with_world st _)); [exact Hok|].
  apply stable_world; [constructor | exact H].
Qed.

Lemma preserved_any_fasta files : preserved I (any_fasta files).
Proof.
  destruct files as [items|[|k keys]];
    [apply preserved_ret | apply preserved_ret | apply preserved_raise].
Qed.

(** One cycle keeps an invariant that its idle events keep, as soon as
    processing a listed request keeps it. *)
Section Cycle.
Hypothesis ok_idle : forall ev, is_idle ev = true -> ok ev.
Hypothesis preserved_process_pr_listed :
  forall n b, listed E n -> preserved I (process_pr E n b).

Lemma preserved_inspect (pr : pull + string) :
  (forall p, pr = inl p -> listed E (number p)) ->
  preserved I (inspect E pr).
Proof.
  intros Hpr. destruct pr as [p|k]; [|intros st H; exact H].
  change (preserved I
    (emit (Info (Inspecting_files (number p))) ;;
     files <- get_pr_files E (number p) ;;
     emit (Info (Found_files (py_len files) (number p))) ;;
     selected <- any_fasta files ;;
     if selected then process_pr E (number p) (head_ref p) else ret tt)).
  apply preserved_bind; [apply preserved_emit; now apply ok_idle|]. intros _.
  apply preserved_bind; [apply preserved_get_pr_files|]. intros files.
  apply preserved_bind; [apply preserved_emit; now apply ok_idle|]. intros _.
  apply preserved_bind; [apply preserved_any_fasta|]. intros [|].
  - apply preserved_process_pr_listed. now apply Hpr.
  - apply preserved_ret.
Qed.

Lemma preserved_cycle : preserved I (cycle E).
Proof.
  unfold cycle.
  apply preserved_bind; [apply preserved_emit; now apply ok_idle|]. intros _.
  apply preserved_bind_val; [apply preserved_get_open_prs|].
  intros prs st _ Hprs Hst.
  assert (Hall : forall p, In (inl p) (py_iter prs) -> listed E (number p)).
  { intros p Hp. destruct prs as [items|keys]; simpl in Hp.
    - apply in_map_iff in Hp as (p' & Heq & Hin). injection Heq as ->.
      exists (world st), items, p. repeat split; [|exact Hin].
      unfold get_open_prs, call in Hprs.
      destruct (api_open_prs E (world st)) as [r w]. exact Hprs.
    - apply in_map_iff in Hp as (k & Heq & _). discriminate. }
  lazymatch goal with
  | |- I (snd (?m ?s)) => cut (preserved I m); [intros Hp; now apply Hp|]
  end.
  apply preserved_bind; [apply preserved_emit; now apply ok_idle|]. intros _.
  apply preserved_bind; [|intros _; apply preserved_sleep; now apply ok_idle].
  apply preserved_for_each. intros x Hx. apply preserved_inspect.
  intros p ->. now apply Hall.
Qed.

Lemma preserved_main_loop cycles : preserved I (main_loop E cycles).
Proof.
  induction cycles as [|n IH]; simpl.
  - apply preserved_ret.
  - apply preserved_bind; [apply preserved_cycle | intros _; exact IH].
Qed.
End Cycle.

End Combinators.
End Preservation.

(** The pipeline talks to the world and logs, and writes nothing to the
    table: it keeps every invariant that survives the steps of the world
    and the events of the pipeline. *)
Section Pipeline.
Context {W R : Type} (E : Env W R).
Context (I : state W -> Prop) (ok : event -> Prop).
Hypothesis stable_world :
  forall st w, env_step E (world st) w -> I st -> I (with_world st w).
Hypothesis stable_event :
  forall st ev, ok ev -> I st -> I (with_event st ev).
Hypothesis ok_pipeline : forall ev, from_pipeline ev = true -> ok ev.

Local Ltac step_call :=
  apply (preserved_call E I stable_world); intros; constructor.
Local Ltac step_emit :=
  apply (preserved_emit I ok stable_event); now apply ok_pipeline.

Lemma preserved_os_makedirs path : preserved I (os_makedirs E path).
Proof.
  unfold os_makedirs. destruct (String.eqb path EmptyString).
  - apply preserved_raise.
  - step_call.
Qed.

Lemma preserved_validate_file file acc : preserved I (validate_file E file acc).
Proof.
  unfold validate_file.
  apply preserved_bind; [step_call|]. intros response.
  destruct (fst response =? 200).
  - apply preserved_bind; [apply preserved_os_makedirs|]. intros _.
    apply preserved_bind; [step_call|]. intros _.
    apply preserved_bind; [step_emit|]. intros _.
    apply preserved_bind; [step_call|]. intros results.
    apply preserved_bind; [step_emit|]. intros _.
    apply preserved_ret.
  - apply preserved_bind; [step_emit|]. intros _. apply preserved_ret.
Qed.

Lemma preserved_validate_files files acc :
  preserved I (validate_files E files acc).
Proof.
  revert acc. induction files as [|file rest IH]; intros acc; simpl.
  - apply preserved_ret.
  - apply preserved_bind; [apply preserved_validate_file | intros; apply IH].
Qed.

Lemma preserved_fetch_pr n b : preserved I (fetch_pr E n b).
Proof.
  unfold fetch_pr.
  apply preserved_bind; [step_call|]. intros _.
  apply preserved_bind; [step_call|]. intros _.
  apply preserved_bind; [step_call|]. intros _.
  apply preserved_ret.
Qed.

Lemma preserved_fasta_only files : preserved I (fasta_only files).
Proof.
  destruct files as [items|[|k keys]];
    [apply preserved_ret | apply preserved_ret | apply preserved_raise].
Qed.

Lemma preserved_run_validation n b : preserved I (run_validation E n b).
Proof.
  unfold run_validation.
  apply preserved_bind; [step_emit|]. intros _.
  apply preserved_bind; [apply preserved_fetch_pr|]. intros _.
  apply preserved_bind; [step_call|]. intros files.
  apply preserved_bind; [apply preserved_fasta_only|]. intros fasta_files.
  apply preserved_validate_files.
Qed.

Lemma preserved_http_post n comment : preserved I (http_post E n comment).
Proof.
  intros st H. unfold http_post.
  pose proof (step_post E n comment (world st)) as Hstep.
  destruct (requests_post E n comment (world st)) as [r w]. simpl in *.
  apply (stable_event (with_world st w)); [now apply ok_pipeline|].
  now apply stable_world.
Qed.

Lemma preserved_post_comment n results : preserved I (post_comment E n results).
Proof.
  unfold post_comment. destruct (render E results comment_header).
  - apply preserved_http_post.
  - apply preserved_raise.
Qed.

End Pipeline.

(** [process_pr] keeps an invariant that also survives its three writes:
    the INSERT, made when the admission check passes, and the two UPDATEs,
    made while the row says ['processing']. *)
Section ProcessPr.
Context {W R : Type} (E : Env W R).
Context (I : state W -> Prop) (ok : event -> Prop) (n : Z).
Hypothesis stable_world :
  forall st w, env_step E (world st) w -> I st -> I (with_world st w).
Hypothesis stable_event :
  forall st ev, ok ev -> I st -> I (with_event st ev).
Hypothesis ok_no_write : forall ev, is_write ev = false -> ok ev.
Hypothesis stable_insert :
  forall st, I st -> admitted (status <$> db st !! n) = true ->
    I (snd (insert_or_replace n "processing" (clock E (world st)) st)).
Hypothesis stable_update :
  forall st s, I st -> status <$> db st !! n = Some "processing"%string ->
    s = "completed"%string \/ s = "error"%string ->
    I (snd (update n s (clock E (world st)) st)).

Local Lemma while_processing_world st w :
  env_step E (world st) w ->
  while_processing I n st -> while_processing I n (with_world st w).
Proof. intros Hs [H1 H2]. split; [now apply stable_world | exact H2]. Qed.

Local Lemma while_processing_event st ev :
  ok ev -> while_processing I n st -> while_processing I n (with_event st ev).
Proof. intros Hs [H1 H2]. split; [now apply stable_event | exact H2]. Qed.

Local Lemma ok_pipeline ev : from_pipeline ev = true -> ok ev.
Proof. intros H. now apply ok_no_write, from_pipeline_no_write. Qed.

Lemma preserved_process_pr b : preserved I (process_pr E n b).
Proof.
  intros st H. unfold process_pr, bind at 1 2, emit, select_status.
  cbn [fst snd db with_event].
  set (st2 := with_event (with_event st (Enter_process_pr n b)) (Sql_select n)).
  assert (H2 : I st2).
  { apply stable_event; [now apply ok_no_write|].
    apply stable_event; [now apply ok_no_write | exact H]. }
  destruct (admitted (status <$> db st !! n)) eqn:Hadm; [|exact H2].
  unfold try_except, bind at 1 2, datetime_now, insert_or_replace.
  set (st3 := with_event (with_db st2 _) _).
  assert (H3 : while_processing I n st3).
  { split; [apply (stable_insert st2 H2 Hadm)|].
    subst st3. cbn [db with_event with_db]. now rewrite lookup_insert_eq. }
  unfold bind at 1.
  pose proof (preserved_run_validation E (while_processing I n) ok
                while_processing_world while_processing_event ok_pipeline
                n b st3 H3) as H4.
  destruct (run_validation E n b st3) as [[results|e] st4]; cbn [snd] in H4.
  - unfold bind at 1.
    pose proof (preserved_post_comment E (while_processing I n) ok
                  while_processing_world while_processing_event ok_pipeline
                  n results st4 H4) as H5.
    destruct (post_comment E n results st4) as [[[]|e] st5]; cbn [snd] in H5.
    + destruct H5 as [H5 H5'].
      apply (stable_update st5); [exact H5 | exact H5' | now left].
    + destruct H5 as [H5 H5']. unfold bind, emit, datetime_now.
      apply (stable_update (with_event st5 _)); [|exact H5' | now right].
      apply stable_event; [now apply ok_no_write | exact H5].
  - destruct H4 as [H4 H4']. unfold bind, emit, datetime_now.
    apply (stable_update (with_event st4 _)); [|exact H4' | now right].
    apply stable_event; [now apply ok_no_write | exact H4].
Qed.

End ProcessPr.

(** The whole loop keeps an invariant that survives the steps of the
    world, the events that write nothing, and the writes of [process_pr]. *)
Section Loop.
Context {W R : Type} (E : Env W R) (I : state W -> Prop).
Hypothesis stable_world :
  forall st w, env_step E (world st) w -> I st -> I (with_world st w).
Hypothesis stable_event :
  forall st ev, is_write ev = false -> I st -> I (with_event st ev).
Hypothesis stable_insert :
  forall n st, I st -> admitted (status <$> db st !! n) = true ->
    I (snd (insert_or_replace n "processing" (clock E (world st)) st)).
Hypothesis stable_update :
  forall n st s, I st -> status <$> db st !! n = Some "processing"%string ->
    s = "completed"%string \/ s = "error"%string ->
    I (snd (update n s (clock E (world st)) st)).

Lemma invariant_main_loop cycles : preserved I (main_loop E cycles).
Proof.
  apply (preserved_main_loop E I (fun ev => is_write ev = false));
    [exact stable_world | exact stable_event | |].
  - now intros [].
  - intros n b _.
    apply (preserved_process_pr E I (fun ev => is_write ev = false) n); auto.
Qed.
End Loop.

(** ** What a declined and an admitted call of [process_pr] do *)

Section Admission.
Context {W R : Type} (E : Env W R).

Lemma process_pr_declined n b st :
  admitted (status <$> db st !! n) = false ->
  process_pr E n b st = (Returns tt, checked n b st).
Proof.
  intros H. unfold process_pr, bind, emit, select_status. simpl.
  now rewrite H.
Qed.

Lemma process_pr_admitted n b st :
  admitted (status <$> db st !! n) = true ->
  process_pr E n b st =
    (Returns tt,
     settled E n (fst (pipeline E n b (claimed E n b st)))
               (snd (pipeline E n b (claimed E n b st)))).
Proof.
  intros H.
  unfold process_pr, pipeline, claimed, checked, settled, bind, emit,
    select_status, try_except, datetime_now, insert_or_replace, update.
  cbn [fst snd db world trace with_event with_db]. rewrite H.
  destruct (run_validation E n b _) as [[results|e] st4];
    cbn [fst snd]; [|reflexivity].
  destruct (post_comment E n results st4) as [[[]|e] st5]; reflexivity.
Qed.

End Admission.

(** ** The statuses the daemon writes *)

Lemma written_no_write ev : is_write ev = false -> written ev = None.
Proof. now destruct ev. Qed.

Lemma daemon_status_not_pending s : daemon_status s -> s <> "pending"%string.
Proof. intros [-> | [-> | ->]]; discriminate. Qed.

Lemma daemon_table_empty : daemon_table (setup_database None).
Proof. intros n r H. simpl in H. now rewrite lookup_empty in H. Qed.

Lemma daemon_table_admitted table n :
  daemon_table table ->
  admitted (status <$> table !! n) = true <-> table !! n = None.
Proof.
  intros Ht. destruct (table !! n) as [r|] eqn:Hn; simpl.
  - split; [|discriminate]. intros H. apply String.eqb_eq in H.
    now apply daemon_status_not_pending in H; [|apply (Ht n r Hn)].
  - tauto.
Qed.

Section Statuses.
Context {W R : Type} (E : Env W R).

Lemma statuses_main_loop cycles : preserved statuses_invariant (main_loop E cycles).
Proof.
  apply (invariant_main_loop E statuses_invariant).
  - intros st w _ H. exact H.
  - intros st ev Hev [H1 H2]. split; [exact H1|]. cbn [trace with_event].
    apply Forall_app. split; [exact H2|]. apply Forall_cons. split; [|constructor].
    intros n r Hw. rewrite (written_no_write ev Hev) in Hw. discriminate.
  - intros n st [H1 H2] _.
    split; cbn [snd insert_or_replace db trace with_event with_db].
    + intros m r Hm. destruct (decide (n = m)) as [->|Hne].
      * rewrite lookup_insert_eq in Hm. injection Hm as <-. now left.
      * rewrite lookup_insert_ne in Hm by exact Hne. now apply (H1 m).
    + apply Forall_app. split; [exact H2|]. apply Forall_cons. split; [|constructor].
      intros m r Hw. injection Hw as _ <-. now left.
  - intros n st s [H1 H2] _ Hs.
    assert (Hd : daemon_status s)
      by (destruct Hs; [right; now left | right; now right]).
    split; cbn [snd update db trace with_event with_db].
    + intros m r Hm. destruct (decide (n = m)) as [->|Hne].
      * rewrite lookup_alter_eq in Hm. destruct (db st !! m); [|discriminate].
        injection Hm as <-. exact Hd.
      * rewrite lookup_alter_ne in Hm by exact Hne. now apply (H1 m).
    + apply Forall_app. split; [exact H2|]. apply Forall_cons. split; [|constructor].
      intros m r Hw. injection Hw as _ <-. exact Hd.
Qed.

(** C10.  Every status the daemon writes is ['processing'], ['completed']
    or ['error'], never ['pending']; so on a table that only the daemon
    has filled (the empty table of [setup_database], or what earlier
    cycles made of it), after any number of cycles in any world, every
    row has one of these three statuses and the admission check of
    [process_pr] passes exactly for the requests that have no row. *)
Theorem daemon_writes_three_statuses
    (cycles : nat) (w : W) (table : store) :
  daemon_table table ->
  let st := snd (main_loop E cycles {| world := w; db := table; trace := [] |}) in
  (forall ev n r, In ev (trace st) -> written ev = Some (n, r) ->
     daemon_status (status r) /\ status r <> "pending"%string) /\
  daemon_table (db st) /\
  (forall n, admitted (status <$> db st !! n) = true <-> db st !! n = None).
Proof.
  intros Ht st.
  destruct (statuses_main_loop cycles {| world := w; db := table; trace := [] |})
    as [H1 H2]; [split; [exact Ht | constructor]|].
  fold st in H1, H2. split; [|split].
  - intros ev n r Hin Hw. rewrite List.Forall_forall in H2.
    pose proof (H2 ev Hin n r Hw) as Hs.
    split; [exact Hs | now apply daemon_status_not_pending].
  - exact H1.
  - intros n. now apply daemon_table_admitted.
Qed.

End Statuses.

(** C10 on the scripted world: two cycles from the empty table. *)
Lemma daemon_writes_three_statuses_witness :
  daemon_table (setup_database None) /\
  let st := snd (main_loop (Scripted.env Scripted.healthy) 2
                   (Scripted.start 1000 (setup_database None))) in
  (forall ev n r, In ev (trace st) -> written ev = Some (n, r) ->
     daemon_status (status r) /\ status r <> "pending"%string) /\
  daemon_table (db st) /\
  (forall n, admitted (status <$> db st !! n) = true <-> db st !! n = None).
Proof.
  split; [exact daemon_table_empty|].
  exact (daemon_writes_three_statuses (Scripted.env Scripted.healthy) 2 1000
           (setup_database None) daemon_table_empty).
Defined.

(** ** Timestamps *)

Lemma StronglySorted_snoc {A} (le : A -> A -> Prop) (l : list A) (x : A) :
  StronglySorted le l -> Forall (fun y => le y x) l ->
  StronglySorted le (l ++ [x]).
Proof.
  induction 1 as [|y l Hl IH Hy]; intros Hx; simpl.
  - repeat constructor.
  - apply Forall_cons in Hx as [Hyx Hx]. constructor; [now apply IH|].
    apply Forall_app. split; [exact Hy | now repeat constructor].
Qed.

Lemma StronglySorted_between {A} (le : A -> A -> Prop) (l1 l2 l3 : list A) (x y : A) :
  StronglySorted le (l1 ++ x :: l2 ++ y :: l3) -> le x y.
Proof.
  induction l1 as [|z l1 IH]; simpl; intros H.
  - apply StronglySorted_inv in H as [_ H].
    apply Forall_app in H as [_ H]. now apply Forall_cons in H as [H _].
  - apply StronglySorted_inv in H as [H _]. now apply IH.
Qed.

Lemma write_times_snoc tr ev :
  write_times (tr ++ [ev]) =
  write_times tr ++ match write_time ev with Some t => [t] | None => [] end.
Proof.
  unfold write_times. rewrite omap_app. simpl. now destruct (write_time ev).
Qed.

Section Timestamps.
Context {W R : Type} (E : Env W R).
Hypothesis monotone : clock_monotone E.

Local Lemma timestamps_write (st : state W) (d : store) (ev : event) :
  write_time ev = Some (clock E (world st)) ->
  timestamps_invariant E st ->
  timestamps_invariant E (with_event (with_db st d) ev).
Proof.
  intros Hev [H1 H2]. unfold timestamps_invariant.
  cbn [trace world with_event with_db].
  rewrite write_times_snoc, Hev. split.
  - now apply StronglySorted_snoc.
  - apply Forall_app. split; [exact H2|]. repeat constructor. lia.
Qed.

Lemma timestamps_main_loop cycles :
  preserved (timestamps_invariant E) (main_loop E cycles).
Proof.
  apply (invariant_main_loop E (timestamps_invariant E)).
  - intros st w Hstep [H1 H2]. split; [exact H1|]. cbn [trace world with_world].
    apply monotone in Hstep. eapply Forall_impl; [exact H2|].
    intros t Ht. simpl in Ht. lia.
  - intros st ev Hev [H1 H2]. unfold timestamps_invariant.
    cbn [trace world with_event].
    rewrite write_times_snoc. unfold write_time.
    rewrite (written_no_write ev Hev), app_nil_r. now split.
  - intros n st H _. now apply timestamps_write.
  - intros n st s H _ _. now apply timestamps_write.
Qed.

(** C9.  While the wall clock does not go back, the [last_updated] values
    the daemon writes never decrease: of any two writes in a run of the
    loop, in any world and from any table, the later one carries a
    timestamp at least as large as the earlier one; in particular for
    two successive writes to the row of one request. *)
Theorem last_updated_monotone
    (cycles : nat) (w : W) (table : store) :
  let st := snd (main_loop E cycles {| world := w; db := table; trace := [] |}) in
  forall pre mid post ev1 ev2 n1 n2 r1 r2,
    trace st = pre ++ ev1 :: mid ++ ev2 :: post ->
    written ev1 = Some (n1, r1) ->
    written ev2 = Some (n2, r2) ->
    last_updated r1 <= last_updated r2.
Proof.
  intros st pre mid post ev1 ev2 n1 n2 r1 r2 Htr Hw1 Hw2.
  destruct (timestamps_main_loop cycles {| world := w; db := table; trace := [] |})
    as [H _]; [split; constructor|].
  fold st in H. rewrite Htr in H. unfold write_times in H.
  rewrite omap_app in H. cbn [omap list_omap] in H.
  rewrite omap_app in H. cbn [omap list_omap] in H.
  unfold write_time at 2 4 in H. rewrite Hw1, Hw2 in H.
  now apply StronglySorted_between in H.
Qed.

End Timestamps.

Lemma scripted_clock_monotone s : clock_monotone (Scripted.env s).
Proof. intros w w' H. destruct H; simpl; lia. Qed.

(** C9 on the scripted world, whose clock only advances. *)
Lemma last_updated_monotone_witness :
  clock_monotone (Scripted.env Scripted.healthy) /\
  let st := snd (main_loop (Scripted.env Scripted.healthy) 2
                   (Scripted.start 1000 ∅)) in
  forall pre mid post ev1 ev2 n1 n2 r1 r2,
    trace st = pre ++ ev1 :: mid ++ ev2 :: post ->
    written ev1 = Some (n1, r1) ->
    written ev2 = Some (n2, r2) ->
    last_updated r1 <= last_updated r2.
Proof.
  split; [apply scripted_clock_monotone|].
  exact (last_updated_monotone (Scripted.env Scripted.healthy)
           (scripted_clock_monotone Scripted.healthy) 2 1000 ∅).
Defined.

(** ** Completed requests *)

Lemma idle_quiet ev :
  is_idle ev = true -> starts_pipeline ev = false /\ is_write ev = false.
Proof. now destruct ev. Qed.

Lemma completed_not_admitted (table : store) n r :
  table !! n = Some r -> status r = "completed"%string ->
  admitted (status <$> table !! n) = false.
Proof. intros -> Hr. simpl. now rewrite Hr. Qed.

Section Completed.
Context {W R : Type} (E : Env W R).

(** The row of a completed request stays as it is, and no write
    addresses it. *)
Section OneRow.
Context (n : Z) (r : row).
Hypothesis completed : status r = "completed"%string.

Lemma completed_row_main_loop cycles :
  preserved (completed_row_invariant n r) (main_loop E cycles).
Proof.
  apply (invariant_main_loop E (completed_row_invariant n r)).
  - intros st w _ H. exact H.
  - intros st ev Hev [H1 H2]. split; [exact H1|]. cbn [trace with_event].
    apply Forall_app. split; [exact H2|]. repeat constructor.
    intros r'. now rewrite (written_no_write ev Hev).
  - intros m st [H1 H2] Hadm.
    assert (Hne : m <> n).
    { intros ->. now rewrite (completed_not_admitted _ _ _ H1 completed) in Hadm. }
    split; cbn [snd insert_or_replace db trace with_event with_db].
    + now rewrite lookup_insert_ne.
    + apply Forall_app. split; [exact H2|]. repeat constructor.
      intros r' Hw. injection Hw as Hw _. contradiction.
  - intros m st s [H1 H2] Hproc _.
    assert (Hne : m <> n).
    { intros ->. rewrite H1 in Hproc. simpl in Hproc.
      rewrite completed in Hproc. discriminate. }
    split; cbn [snd update db trace with_event with_db].
    + now rewrite lookup_alter_ne.
    + apply Forall_app. split; [exact H2|]. repeat constructor.
      intros r' Hw. injection Hw as Hw _. contradiction.
Qed.
End OneRow.

End Completed.

Lemma scripted_listed_healthy m :
  listed (Scripted.env Scripted.healthy) m -> m = 42.
Proof.
  intros (w & prs & pr & Hprs & Hin & <-). simpl in Hprs.
  injection Hprs as <-. destruct Hin as [<- | []]. reflexivity.
Qed.

(** ** The admission check *)

Section Traces.
Context {W R : Type} (E : Env W R).

Lemma extends_event t0 (st : state W) ev :
  extends t0 st -> extends t0 (with_event st ev).
Proof.
  intros [evs H]. exists (evs ++ [ev]). cbn [trace with_event].
  now rewrite H, app_assoc.
Qed.

Lemma run_validation_unfold n b st :
  run_validation E n b st =
  validation_body E n b (with_event st (Enter_run_validation n b)).
Proof. reflexivity. Qed.

Lemma extends_settled t0 n r st : extends t0 st -> extends t0 (settled E n r st).
Proof.
  intros H. destruct r as [[]|e]; cbn [settled snd update].
  - now apply (extends_event t0 (with_db st _)).
  - apply (extends_event t0 (with_db (with_event st _) _)).
    now apply extends_event.
Qed.

(** An admitted call claims the row before anything else and then
    enters the pipeline. *)
Lemma process_pr_admitted_trace n b st :
  admitted (status <$> db st !! n) = true ->
  exists evs,
    trace (snd (process_pr E n b st)) =
    trace st ++ [Enter_process_pr n b; Sql_select n;
                 Sql_insert_or_replace n "processing" (clock E (world st));
                 Enter_run_validation n b] ++ evs.
Proof.
  intros H.
  set (t0 := trace st ++
               [Enter_process_pr n b; Sql_select n;
                Sql_insert_or_replace n "processing" (clock E (world st));
                Enter_run_validation n b]).
  enough (extends t0 (snd (process_pr E n b st))) as [evs Hevs].
  { exists evs. rewrite Hevs. subst t0. now rewrite <- app_assoc. }
  rewrite (process_pr_admitted E n b st H). cbn [snd].
  apply extends_settled. unfold pipeline, bind. rewrite run_validation_unfold.
  set (st1 := with_event (claimed E n b st) _).
  assert (H1 : extends t0 st1).
  { exists []. subst st1 t0. cbn. now rewrite <- !app_assoc, app_nil_r. }
  assert (Hbody : extends t0 (snd (validation_body E n b st1))).
  { revert H1. generalize st1. fold (preserved (extends t0) (validation_body E n b)).
    unfold validation_body.
    apply preserved_bind;
      [apply (preserved_fetch_pr E (extends t0)); intros; assumption|].
    intros _. apply preserved_bind;
      [apply (preserved_get_pr_files E (extends t0)); intros; assumption|].
    intros files. apply preserved_bind; [apply preserved_fasta_only|].
    intros fasta_files.
    apply (preserved_validate_files E (extends t0) (fun _ => True)); auto.
    intros s ev _. apply extends_event. }
  destruct (validation_body E n b st1) as [[results|e] st2]; cbn [snd] in *;
    [|exact Hbody].
  apply (preserved_post_comment E (extends t0) (fun _ => True)); auto.
  intros s ev _. apply extends_event.
Qed.

End Traces.

Section AdmissionRule.
Context {W R : Type} (E : Env W R).

Lemma admitted_absent_or_pending (table : store) n :
  admitted (status <$> table !! n) = true <-> absent_or_pending table n.
Proof.
  unfold absent_or_pending. destruct (table !! n) as [r|]; simpl.
  - rewrite String.eqb_eq. split.
    + intros ->. now right.
    + intros [H|H]; [discriminate | now injection H].
  - split; [now left | reflexivity].
Qed.

(** C1, amended.  [process_pr] admits a request (writes its row as
    ['processing'] at the current time and enters the pipeline) if and
    only if the table has no row for it or its row says ['pending']; in
    every other stored state, ['error'] included, the call declines: it
    changes neither the table nor the world and only its entry and its
    SELECT are traced. *)
Theorem admission_absent_or_pending (n : Z) (b : string) (st : state W) :
  let st' := snd (process_pr E n b st) in
  let new := drop (length (trace st)) (trace st') in
  (absent_or_pending (db st) n <->
     In (Sql_insert_or_replace n "processing" (clock E (world st))) new /\
     In (Enter_run_validation n b) new) /\
  (~ absent_or_pending (db st) n ->
     db st' = db st /\ world st' = world st /\
     new = [Enter_process_pr n b; Sql_select n]).
Proof.
  intros st' new.
  assert (Hdecl : ~ absent_or_pending (db st) n ->
            db st' = db st /\ world st' = world st /\
            new = [Enter_process_pr n b; Sql_select n]).
  { intros Hno. rewrite <- admitted_absent_or_pending in Hno.
    apply not_true_is_false in Hno.
    subst new st'. rewrite (process_pr_declined E n b st Hno). cbn [snd].
    repeat split. cbn [checked trace with_event].
    now rewrite <- app_assoc, drop_app_length. }
  split; [|exact Hdecl].
  destruct (admitted (status <$> db st !! n)) eqn:Hadm.
  - pose proof (proj1 (admitted_absent_or_pending (db st) n) Hadm) as Hp.
    destruct (process_pr_admitted_trace E n b st Hadm) as [evs Hevs].
    subst new st'. rewrite Hevs, drop_app_length.
    split; [intros _ | intros _; exact Hp].
    simpl. tauto.
  - assert (Hno : ~ absent_or_pending (db st) n).
    { rewrite <- admitted_absent_or_pending, Hadm. discriminate. }
    destruct (Hdecl Hno) as (_ & _ & Hnew). rewrite Hnew.
    split; [contradiction|]. intros [[H|[H|[]]] _]; discriminate.
Qed.

(** C3, amended.  A row that says ['processing'] is never taken over,
    however old its [last_updated] is: [process_pr] declines, leaving
    the table and the world as they are, and traces its entry and its
    SELECT only, so nothing is logged and the pipeline is not entered. *)
Theorem processing_never_taken_over
    (n : Z) (b : string) (st : state W) (r : row) :
  db st !! n = Some r ->
  status r = "processing"%string ->
  process_pr E n b st = (Returns tt, checked n b st) /\
  db (checked n b st) = db st /\
  world (checked n b st) = world st /\
  trace (checked n b st) = trace st ++ [Enter_process_pr n b; Sql_select n].
Proof.
  intros Hn Hr. split; [|repeat split].
  - apply process_pr_declined. rewrite Hn. simpl. now rewrite Hr.
  - cbn [checked trace with_event]. now rewrite <- app_assoc.
Qed.

End AdmissionRule.

(** C1 refuted: request 7 is stored as ['error'], yet [process_pr] neither
    moves it to ['processing'] nor enters the pipeline; and request 8,
    stored as ['pending'], a state other than absent and ['error'], is
    admitted. *)
Lemma error_not_admitted_pending_admitted :
  let E := Scripted.env Scripted.healthy in
  let table : store :=
    {[ 7 := {| status := "error"; last_updated := 500 |};
       8 := {| status := "pending"; last_updated := 500 |} ]} in
  let st7 := snd (process_pr E 7 "fix" (Scripted.start 1000 table)) in
  let st8 := snd (process_pr E 8 "new" (Scripted.start 1000 table)) in
  (status <$> table !! 7 = Some "error"%string /\
   db st7 = table /\
   trace st7 = [Enter_process_pr 7 "fix"; Sql_select 7]) /\
  (status <$> table !! 8 = Some "pending"%string /\
   In (Sql_insert_or_replace 8 "processing" 1000) (trace st8) /\
   In (Enter_run_validation 8 "new") (trace st8)).
Proof. vm_compute. repeat split; auto 10. Qed.

(** C1 amended, on the scripted world: a request stored as ['error'] is
    declined. *)
Lemma admission_absent_or_pending_witness :
  let E := Scripted.env Scripted.healthy in
  let st := Scripted.start 1000
              ({[ 7 := {| status := "error"; last_updated := 500 |} ]} : store) in
  let st' := snd (process_pr E 7 "fix" st) in
  db st' = db st /\ world st' = world st /\
  drop (length (trace st)) (trace st') = [Enter_process_pr 7 "fix"; Sql_select 7].
Proof.
  intros E st st'.
  apply (proj2 (admission_absent_or_pending E 7 "fix" st)).
  intros [H|H]; vm_compute in H; discriminate.
Defined.

(** C3 refuted: request 7 has been ['processing'] since time 0; at time
    1000000, far beyond a stuck-threshold of an hour, [process_pr] still
    declines: the row is untouched, the pipeline is not entered, and no
    takeover is logged. *)
Lemma stale_processing_not_taken_over :
  let E := Scripted.env Scripted.healthy in
  let threshold := 3600 in
  let table : store := {[ 7 := {| status := "processing"; last_updated := 0 |} ]} in
  let st := Scripted.start 1000000 table in
  let st' := snd (process_pr E 7 "fix" st) in
  table !! 7 = Some {| status := "processing"; last_updated := 0 |} /\
  clock E (world st) - 0 > threshold /\
  db st' = table /\
  trace st' = [Enter_process_pr 7 "fix"; Sql_select 7].
Proof. vm_compute. repeat split. Qed.

(** C3 amended, on the scripted world. *)
Lemma processing_never_taken_over_witness :
  let E := Scripted.env Scripted.healthy in
  let r := {| status := "processing"; last_updated := 0 |} in
  let st := Scripted.start 1000000 ({[ 7 := r ]} : store) in
  process_pr E 7 "fix" st = (Returns tt, checked 7 "fix" st) /\
  db (checked 7 "fix" st) = db st /\
  world (checked 7 "fix" st) = world st /\
  trace (checked 7 "fix" st) = trace st ++ [Enter_process_pr 7 "fix"; Sql_select 7].
Proof.
  intros E r st.
  exact (processing_never_taken_over E 7 "fix" st r eq_refl eq_refl).
Defined.

(** ** Failures of the checkout *)

Section Checkout.
Context {W R : Type} (E : Env W R).

Lemma fetch_pr_raises n b st e w' :
  checkout_raises E n b (world st) e w' ->
  fetch_pr E n b st = (Raises e, with_world st w').
Proof.
  intros [H1 | u w1 H1 H2 | u w1 rc w2 H1 H2 H3];
    unfold fetch_pr, bind, call; rewrite H1; cbn [world with_world];
    [reflexivity | rewrite H2; reflexivity |].
  rewrite H2. cbn [world with_world]. rewrite H3. reflexivity.
Qed.

Lemma pipeline_checkout_raises n b st e w' :
  checkout_raises E n b (world st) e w' ->
  pipeline E n b st =
    (Raises e, with_world (with_event st (Enter_run_validation n b)) w').
Proof.
  intros H. unfold pipeline, bind. rewrite run_validation_unfold.
  unfold validation_body, bind.
  rewrite (fetch_pr_raises n b _ e w') by exact H. reflexivity.
Qed.

Lemma fetch_pr_drop_exit_status n b st :
  fetch_pr (drop_exit_status E) n b st = fetch_pr E n b st.
Proof.
  unfold fetch_pr, bind, call. cbn [os_chdir git_fetch git_checkout drop_exit_status].
  destruct (os_chdir E (world st)) as [[u|e] w1]; [|reflexivity].
  cbn [world with_world].
  destruct (git_fetch E b n w1) as [[rc|e] w2]; [|reflexivity].
  cbn [world with_world].
  destruct (git_checkout E n w2) as [[rc'|e] w3]; reflexivity.
Qed.

Lemma pipeline_drop_exit_status n b st :
  pipeline (drop_exit_status E) n b st = pipeline E n b st.
Proof.
  unfold pipeline, bind. rewrite !run_validation_unfold.
  unfold validation_body, bind. rewrite fetch_pr_drop_exit_status.
  reflexivity.
Qed.

Lemma process_pr_drop_exit_status n b st :
  process_pr (drop_exit_status E) n b st = process_pr E n b st.
Proof.
  destruct (admitted (status <$> db st !! n)) eqn:Hadm.
  - rewrite (process_pr_admitted (drop_exit_status E) n b st Hadm),
      (process_pr_admitted E n b st Hadm).
    change (claimed (drop_exit_status E) n b st) with (claimed E n b st).
    rewrite pipeline_drop_exit_status. reflexivity.
  - rewrite (process_pr_declined (drop_exit_status E) n b st Hadm),
      (process_pr_declined E n b st Hadm). reflexivity.
Qed.

(** C4, amended.  When materialising the branch raises an exception
    ([os.chdir] fails, or git cannot be launched for the fetch or for the
    checkout), an admitted request ends with its row saying ['error'],
    the error is logged, and nothing is posted: the trace holds the
    claim of the row, the entry into the pipeline, the error and the
    final UPDATE only.  The exit status of git is never looked at:
    masking it changes nothing of what [process_pr] does. *)
Theorem checkout_exception_marks_error
    (n : Z) (b : string) (st : state W) (e : exn) (w' : W) :
  absent_or_pending (db st) n ->
  checkout_raises E n b (world st) e w' ->
  process_pr E n b st =
    (Returns tt,
     {| world := w';
        db := <[n := {| status := "error"; last_updated := clock E w' |}]> (db st);
        trace := trace st ++
          [Enter_process_pr n b; Sql_select n;
           Sql_insert_or_replace n "processing" (clock E (world st));
           Enter_run_validation n b;
           Error (Error_processing n e);
           Sql_update n "error" (clock E w')] |}) /\
  forall st0, process_pr (drop_exit_status E) n b st0 = process_pr E n b st0.
Proof.
  intros Hadm Hraise. split; [|intros st0; apply process_pr_drop_exit_status].
  apply admitted_absent_or_pending in Hadm.
  rewrite (process_pr_admitted E n b st Hadm).
  rewrite (pipeline_checkout_raises n b _ e w') by exact Hraise.
  cbn [fst snd settled update claimed checked insert_or_replace
       world db trace with_world with_event with_db].
  rewrite alter_insert_eq. f_equal.
  unfold checked, with_event, with_db, with_world. cbn [world db trace].
  f_equal. rewrite <- !app_assoc. reflexivity.
Qed.

End Checkout.

(** C4 refuted: [git fetch] and [git checkout] both fail (exit statuses
    128 and 1), yet request 42 ends ['completed'] and an outcome is
    posted. *)
Lemma failed_checkout_still_completed :
  let E := Scripted.env Scripted.git_fails in
  let st := snd (process_pr E 42 "add-seqs" (Scripted.start 1000 ∅)) in
  git_fetch E "add-seqs" 42 1000 = (Returns 128, 1001) /\
  git_checkout E 42 1001 = (Returns 1, 1002) /\
  status <$> db st !! 42 = Some "completed"%string /\
  exists body,
    In (Http_post 42 body (Returns 201)) (trace st) /\
    render E [("data/seq1.fasta", "result of data/seq1.fasta")]%string
           comment_header = Returns body.
Proof.
  vm_compute. repeat split. eexists. split; [|reflexivity]. auto 20.
Qed.

(** C4 amended, on the scripted world without a local clone. *)
Lemma checkout_exception_marks_error_witness :
  let E := Scripted.env Scripted.no_clone in
  process_pr E 42 "add-seqs" (Scripted.start 1000 ∅) =
    (Returns tt,
     {| world := 1001;
        db := {[ 42 := {| status := "error"; last_updated := 1001 |} ]};
        trace := [Enter_process_pr 42 "add-seqs"; Sql_select 42;
                  Sql_insert_or_replace 42 "processing" 1000;
                  Enter_run_validation 42 "add-seqs";
                  Error (Error_processing 42 FileNotFoundError);
                  Sql_update 42 "error" 1001] |}).
Proof.
  intros E.
  exact (proj1 (checkout_exception_marks_error E 42 "add-seqs"
                  (Scripted.start 1000 ∅) FileNotFoundError 1001
                  (or_introl eq_refl)
                  (chdir_raises E 42 "add-seqs" 1000 FileNotFoundError 1001 eq_refl))).
Defined.

(** ** Failures of the publication *)

Section Publication.
Context {W R : Type} (E : Env W R).

Lemma run_validation_db n b st : db (snd (run_validation E n b st)) = db st.
Proof.
  apply (preserved_run_validation E (fun s => db s = db st) (fun _ => True));
    auto.
Qed.

Lemma claimed_db n b st :
  db (claimed E n b st) =
  <[n := {| status := "processing"; last_updated := clock E (world st) |}]> (db st).
Proof. reflexivity. Qed.

(** How an admitted call ends once the validation has returned its
    results and the comment is rendered. *)
Lemma process_pr_after_validation
    (n : Z) (b : string) (st st2 : state W)
    (results : list (string * R)) (comment : string) :
  absent_or_pending (db st) n ->
  run_validation E n b (claimed E n b st) = (Returns results, st2) ->
  render E results comment_header = Returns comment ->
  let st' := snd (process_pr E n b st) in
  match requests_post E n comment (world st2) with
  | (Returns code, w3) =>
      world st' = w3 /\
      db st' = <[n := {| status := "completed";
                         last_updated := clock E w3 |}]> (db st) /\
      trace st' = trace st2 ++ [Http_post n comment (Returns code);
                                Sql_update n "completed" (clock E w3)]
  | (Raises e, w3) =>
      world st' = w3 /\
      db st' = <[n := {| status := "error"; last_updated := clock E w3 |}]> (db st) /\
      trace st' = trace st2 ++ [Http_post n comment (Raises e);
                                Error (Error_processing n e);
                                Sql_update n "error" (clock E w3)]
  end.
Proof.
  intros Hadm Hrun Hrender st'.
  apply admitted_absent_or_pending in Hadm.
  pose proof (run_validation_db n b (claimed E n b st)) as Hdb.
  rewrite Hrun, claimed_db in Hdb. cbn [snd] in Hdb.
  subst st'. rewrite (process_pr_admitted E n b st Hadm).
  unfold pipeline, bind. rewrite Hrun.
  unfold post_comment. rewrite Hrender. unfold http_post.
  destruct (requests_post E n comment (world st2)) as [[code|e] w3];
    cbn [fst snd settled update world db trace with_world with_event with_db];
    rewrite Hdb, alter_insert_eq; repeat split; try reflexivity;
    now rewrite <- !app_assoc.
Qed.

(** C6, amended.  Once the validation of an admitted request has
    returned its results and the comment is rendered, the recorded
    status depends on how the POST ends.  If it is answered, with any
    status code, a failure code included, the row is set to
    ['completed'] and nothing is logged; if it raises, the exception is
    caught at the item boundary and logged, and the row is set to
    ['error']. *)
Theorem publication_decides_status
    (n : Z) (b : string) (st st2 : state W)
    (results : list (string * R)) (comment : string) :
  absent_or_pending (db st) n ->
  run_validation E n b (claimed E n b st) = (Returns results, st2) ->
  render E results comment_header = Returns comment ->
  let st' := snd (process_pr E n b st) in
  match requests_post E n comment (world st2) with
  | (Returns code, w3) =>
      db st' = <[n := {| status := "completed";
                         last_updated := clock E w3 |}]> (db st) /\
      trace st' = trace st2 ++ [Http_post n comment (Returns code);
                                Sql_update n "completed" (clock E w3)]
  | (Raises e, w3) =>
      db st' = <[n := {| status := "error"; last_updated := clock E w3 |}]> (db st) /\
      trace st' = trace st2 ++ [Http_post n comment (Raises e);
                                Error (Error_processing n e);
                                Sql_update n "error" (clock E w3)]
  end.
Proof.
  intros Hadm Hrun Hrender st'.
  pose proof (process_pr_after_validation n b st st2 results comment
                Hadm Hrun Hrender) as H.
  cbv zeta in H. fold st' in H.
  destruct (requests_post E n comment (world st2)) as [[code|e] w3];
    destruct H as (_ & H1 & H2); now split.
Qed.

End Publication.

(** C6 refuted: the same request, validated alike in two worlds that
    differ only in whether the POST of the comment goes through, ends
    ['completed'] in one and ['error'] in the other. *)
Lemma publish_failure_changes_status :
  let posted := snd (process_pr (Scripted.env Scripted.healthy) 42 "add-seqs"
                       (Scripted.start 1000 ∅)) in
  let failed := snd (process_pr (Scripted.env Scripted.post_unreachable) 42 "add-seqs"
                       (Scripted.start 1000 ∅)) in
  In (Info (Validation_complete "data/seq1.fasta")) (trace posted) /\
  In (Info (Validation_complete "data/seq1.fasta")) (trace failed) /\
  status <$> db posted !! 42 = Some "completed"%string /\
  status <$> db failed !! 42 = Some "error"%string.
Proof. vm_compute. repeat split; auto 20. Qed.

(** C6 amended, on the scripted world where the POST raises. *)
Lemma publication_decides_status_witness :
  let E := Scripted.env Scripted.post_unreachable in
  let st := Scripted.start 1000 ∅ in
  let st2 := snd (run_validation E 42 "add-seqs" (claimed E 42 "add-seqs" st)) in
  let comment := ("## Validation Results" +:+ nl +:+ nl
                  +:+ "### data/seq1.fasta" +:+ nl
                  +:+ "Barcode Rank: 1" +:+ nl
                  +:+ "Full Rank: 2" +:+ nl
                  +:+ "Messages:" +:+ nl +:+ "result of data/seq1.fasta"
                  +:+ nl +:+ nl)%string in
  let st' := snd (process_pr E 42 "add-seqs" st) in
  db st' = <[42 := {| status := "error"; last_updated := 1010 |}]> (db st) /\
  trace st' = trace st2 ++ [Http_post 42 comment (Raises ConnectionError);
                            Error (Error_processing 42 ConnectionError);
                            Sql_update 42 "error" 1010].
Proof.
  intros E st st2 comment st'.
  exact (publication_decides_status E 42 "add-seqs" st st2
           [("data/seq1.fasta", "result of data/seq1.fasta")]%string comment
           (or_introl eq_refl) eq_refl eq_refl).
Defined.

(** ** Failures of the listings *)

Lemma for_each_raises {W A} (xs rest : list A) (x : A) (body : A -> M W unit)
    (st st1 st2 : state W) (e : exn) :
  for_each xs body st = (Returns tt, st1) ->
  body x st1 = (Raises e, st2) ->
  for_each (xs ++ x :: rest) body st = (Raises e, st2).
Proof.
  revert st. induction xs as [|y xs IH]; intros st Hxs Hx; simpl in *.
  - injection Hxs as <-. unfold bind. now rewrite Hx.
  - unfold bind in *. destruct (body y st) as [[[]|e'] s']; [|discriminate].
    now apply IH.
Qed.

Section Listing.
Context {W R : Type} (E : Env W R).

Lemma cycle_listing_fails st e st' :
  listing_fails E st e st' -> cycle E st = (Raises e, st').
Proof.
  intros [e0 w H | k keys w H
         | before pr after w1 st1 e0 w2 H Hbefore Hfiles
         | before pr after w1 st1 k keys w2 H Hbefore Hfiles].
  - unfold cycle, bind, emit, get_open_prs, call.
    cbn [world with_event]. rewrite H. reflexivity.
  - unfold cycle, bind, emit, get_open_prs, call.
    cbn [world with_event]. rewrite H. cbn.
    unfold with_event, with_world. cbn. now rewrite <- app_assoc.
  - unfold cycle, bind at 1 2 3, emit, get_open_prs, call.
    cbn [world with_event]. rewrite H.
    fold (listed_state st (Array (before ++ pr :: after)) w1).
    unfold bind at 1. cbn [py_iter]. rewrite map_app. cbn [map].
    erewrite for_each_raises; [reflexivity | exact Hbefore |].
    unfold inspect, subscript, bind, ret, emit, get_pr_files, call.
    cbn [world with_event]. rewrite Hfiles. reflexivity.
  - unfold cycle, bind at 1 2 3, emit, get_open_prs, call.
    cbn [world with_event]. rewrite H.
    fold (listed_state st (Array (before ++ pr :: after)) w1).
    unfold bind at 1. cbn [py_iter]. rewrite map_app. cbn [map].
    erewrite for_each_raises; [reflexivity | exact Hbefore |].
    unfold inspect, subscript, bind, ret, emit, get_pr_files, call.
    cbn [world with_event]. rewrite Hfiles. cbn.
    unfold with_event, with_world. cbn. now rewrite <- app_assoc.
Qed.

(** C7, amended.  When a listing fails in [main] (the call raises, or
    the answer is an error object), nothing catches the exception: it
    ends the cycle at once and the loop with it, however many cycles
    were still to come, and no retry follows.  Nothing is logged about
    the failure.  The failed call changes no row: the table is the one
    of the start of the cycle when the open requests could not be
    listed, and the one left by the requests inspected before when the
    files of a request could not be. *)
Theorem listing_failure_ends_daemon
    (st : state W) (e : exn) (st' : state W) (cycles : nat) :
  listing_fails E st e st' ->
  cycle E st = (Raises e, st') /\
  main_loop E (S cycles) st = (Raises e, st').
Proof.
  intros H. apply cycle_listing_fails in H. split; [exact H|].
  cbn [main_loop]. unfold bind. now rewrite H.
Qed.

End Listing.

(** C7 refuted: GitHub is unreachable when the first of three cycles
    lists the open requests; the exception leaves [main], no later cycle
    retries, and nothing about the failure is logged.  The same happens
    when the listing is answered by an error object. *)
Lemma listing_failure_not_retried :
  main_loop (Scripted.env Scripted.offline) 3 (Scripted.start 1000 ∅) =
    (Raises ConnectionError,
     {| world := 1001; db := ∅; trace := [Info Checking_for_open_PRs] |}) /\
  main_loop (Scripted.env Scripted.unauthorized) 3 (Scripted.start 1000 ∅) =
    (Raises TypeError,
     {| world := 1001; db := ∅;
        trace := [Info Checking_for_open_PRs; Info (Found_open_PRs 3)] |}).
Proof. split; reflexivity. Qed.

(** C7 amended, on the scripted world without network. *)
Lemma listing_failure_ends_daemon_witness :
  let E := Scripted.env Scripted.offline in
  let st' := {| world := 1001; db := ∅; trace := [Info Checking_for_open_PRs] |} in
  cycle E (Scripted.start 1000 ∅) = (Raises ConnectionError, st') /\
  main_loop E 3 (Scripted.start 1000 ∅) = (Raises ConnectionError, st').
Proof.
  intros E st'.
  exact (listing_failure_ends_daemon E (Scripted.start 1000 ∅) ConnectionError st' 2
           (open_prs_raises E (Scripted.start 1000 ∅) ConnectionError 1001 eq_refl)).
Defined.

(** ** Which requests are selected *)

Lemma selections_snoc tr ev :
  selections (tr ++ [ev]) =
  selections tr ++ match entered ev with Some x => [x] | None => [] end.
Proof. unfold selections. rewrite omap_app. simpl. now destruct (entered ev). Qed.

Lemma extract_spec files_of prs n b :
  In (n, b) (extract files_of prs) <->
  exists pr, In pr prs /\ number pr = n /\ head_ref pr = b /\
    exists f suffix prefix,
      In f (files_of n) /\ In suffix fasta_suffixes /\
      filename f = (prefix +:+ suffix)%string.
Proof.
  unfold extract. rewrite in_map_iff. split.
  - intros (pr & Heq & Hin). injection Heq as <- <-.
    apply filter_In in Hin as [Hin Hsel].
    apply existsb_exists in Hsel as (f & Hf & Hfasta).
    apply is_fasta_spec in Hfasta as (suffix & prefix & Hs & Hname).
    exists pr. repeat split; [exact Hin|]. now exists f, suffix, prefix.
  - intros (pr & Hin & <- & <- & f & suffix & prefix & Hf & Hs & Hname).
    exists pr. split; [reflexivity|]. apply filter_In. split; [exact Hin|].
    apply existsb_exists. exists f. split; [exact Hf|].
    apply is_fasta_spec. now exists suffix, prefix.
Qed.

Lemma extract_sublist files_of prs :
  sublist (extract files_of prs) (map (fun pr => (number pr, head_ref pr)) prs).
Proof.
  unfold extract. induction prs as [|pr prs IH]; simpl; [constructor|].
  destruct (existsb is_fasta (files_of (number pr))); simpl;
    now constructor.
Qed.

Section Selection.
Context {W R : Type} (E : Env W R).

Local Lemma selections_are_event l (st : state W) ev :
  entered ev = None -> selections_are l st -> selections_are l (with_event st ev).
Proof.
  intros Hev H. unfold selections_are. cbn [trace with_event].
  now rewrite selections_snoc, Hev, app_nil_r.
Qed.

Local Lemma pipeline_enters_nothing ev : from_pipeline ev = true -> entered ev = None.
Proof. now destruct ev. Qed.

Lemma process_pr_returns n b st : fst (process_pr E n b st) = Returns tt.
Proof.
  destruct (admitted (status <$> db st !! n)) eqn:H.
  - now rewrite (process_pr_admitted E n b st H).
  - now rewrite (process_pr_declined E n b st H).
Qed.

Lemma process_pr_selections n b st :
  selections (trace (snd (process_pr E n b st))) =
  selections (trace st) ++ [(n, b)].
Proof.
  set (l := selections (trace st) ++ [(n, b)]).
  assert (Hchecked : selections_are l (checked n b st)).
  { apply selections_are_event; [reflexivity|].
    unfold selections_are. cbn [trace with_event].
    now rewrite selections_snoc. }
  destruct (admitted (status <$> db st !! n)) eqn:H.
  - rewrite (process_pr_admitted E n b st H). cbn [snd].
    assert (Hclaimed : selections_are l (claimed E n b st)).
    { now apply (selections_are_event l (with_db (checked n b st) _)). }
    assert (Hpipe : selections_are l (snd (pipeline E n b (claimed E n b st)))).
    { revert Hclaimed. generalize (claimed E n b st).
      fold (preserved (selections_are l) (pipeline E n b)). apply preserved_bind.
      - apply (preserved_run_validation E (selections_are l)
                 (fun ev => entered ev = None));
          [intros; assumption | apply selections_are_event
          | apply pipeline_enters_nothing].
      - intros results.
        apply (preserved_post_comment E (selections_are l)
                 (fun ev => entered ev = None));
          [intros; assumption | apply selections_are_event
          | apply pipeline_enters_nothing]. }
    destruct (fst (pipeline E n b (claimed E n b st))) as [[]|e];
      cbn [settled snd update].
    + now apply (selections_are_event l (with_db _ _)).
    + apply (selections_are_event l (with_db (with_event _ _) _)); [reflexivity|].
      now apply selections_are_event.
  - now rewrite (process_pr_declined E n b st H).
Qed.

Section Stable.
Context (files_of : Z -> list changed_file).

Lemma inspect_selections pr st :
  files_listed E files_of pr ->
  exists st',
    inspect E (inl pr) st = (Returns tt, st') /\
    selections (trace st') = selections (trace st) ++ extract files_of [pr].
Proof.
  intros Hfiles. unfold inspect, subscript, bind at 1, ret.
  unfold bind at 1, emit. unfold bind at 1, get_pr_files, call.
  cbn [world with_event]. specialize (Hfiles (world st)).
  destruct (api_pr_files E (number pr) (world st)) as [r w]. cbn [fst] in Hfiles.
  subst r. unfold bind at 1, emit. unfold bind at 1, any_fasta, ret.
  unfold extract. cbn [List.filter map py_len].
  set (st1 := with_event (with_world (with_event st _) w) _).
  assert (H1 : selections (trace st1) = selections (trace st)).
  { subst st1. cbn [trace with_event with_world].
    now rewrite !selections_snoc, !app_nil_r. }
  destruct (existsb is_fasta (files_of (number pr))).
  - unfold bind. exists (snd (process_pr E (number pr) (head_ref pr) st1)).
    split.
    + pose proof (process_pr_returns (number pr) (head_ref pr) st1) as Hret.
      destruct (process_pr E (number pr) (head_ref pr) st1) as [r s'].
      cbn [fst snd] in *. now subst r.
    + now rewrite process_pr_selections, H1.
  - exists st1. split; [reflexivity|]. now rewrite H1, app_nil_r.
Qed.

Lemma for_each_inspect_selections prs st :
  (forall pr, In pr prs -> files_listed E files_of pr) ->
  exists st',
    for_each (map inl prs) (inspect E) st = (Returns tt, st') /\
    selections (trace st') = selections (trace st) ++ extract files_of prs.
Proof.
  revert st. induction prs as [|pr prs IH]; intros st Hfiles.
  - exists st. split; [reflexivity|]. unfold extract. simpl. now rewrite app_nil_r.
  - destruct (inspect_selections pr st) as (st1 & Hrun & Hsel);
      [apply Hfiles; now left|].
    destruct (IH st1) as (st2 & Hrun2 & Hsel2);
      [intros p Hp; apply Hfiles; now right|].
    exists st2. split.
    + cbn [map for_each]. unfold bind. now rewrite Hrun.
    + rewrite Hsel2, Hsel, <- app_assoc. f_equal.
      unfold extract. cbn [List.filter].
      destruct (existsb is_fasta (files_of (number pr))); reflexivity.
Qed.

(** C8.  In a cycle that lists the open requests [prs], each with the
    changed files [files_of], the requests handed to [process_pr] are
    exactly those with at least one changed file whose name ends with
    [.fasta], [.fa] or [.fas], in the order in which the requests were
    listed; this holds for every table, so no stored status filters
    the selection. *)
Theorem selection_by_suffix (st : state W) (prs : list pull) (w1 : W) :
  api_open_prs E (world st) = (Returns (Array prs), w1) ->
  (forall pr, In pr prs -> files_listed E files_of pr) ->
  (exists st',
     cycle E st = (Returns tt, st') /\
     selections (trace st') = selections (trace st) ++ extract files_of prs) /\
  (forall n b,
     In (n, b) (extract files_of prs) <->
     exists pr, In pr prs /\ number pr = n /\ head_ref pr = b /\
       exists f suffix prefix,
         In f (files_of n) /\ In suffix fasta_suffixes /\
         filename f = (prefix +:+ suffix)%string) /\
  sublist (extract files_of prs) (map (fun pr => (number pr, head_ref pr)) prs).
Proof.
  intros Hprs Hfiles.
  split; [|split; [intros n b; apply extract_spec | apply extract_sublist]].
  unfold cycle, bind at 1 2 3, emit, get_open_prs, call.
  cbn [world with_event]. rewrite Hprs.
  set (st1 := with_event (with_world (with_event st _) w1) _).
  assert (H1 : selections (trace st1) = selections (trace st)).
  { subst st1. cbn [trace with_event with_world].
    now rewrite !selections_snoc, !app_nil_r. }
  destruct (for_each_inspect_selections prs st1 Hfiles) as (st2 & Hrun & Hsel).
  unfold bind. cbn [py_iter]. rewrite Hrun.
  eexists. split; [reflexivity|].
  cbn [snd sleep trace with_event with_world].
  now rewrite selections_snoc, app_nil_r, Hsel, H1.
Qed.
End Stable.

End Selection.

(** C8 on the scripted world: request 42 changes [data/seq1.fasta] and is
    selected. *)
Lemma selection_by_suffix_witness :
  let E := Scripted.env Scripted.healthy in
  let st := Scripted.start 1000 ∅ in
  let files_of := fun _ : Z => Scripted.files42 in
  exists st',
    cycle E st = (Returns tt, st') /\
    selections (trace st') = selections (trace st) ++ [(42, "add-seqs"%string)].
Proof.
  intros E st files_of.
  exact (proj1 (selection_by_suffix E files_of st [Scripted.pr42] 1001 eq_refl
                  (fun pr _ w => eq_refl))).
Defined.

(** ** Failures of single fetches *)

Lemma bind_returns {W A B} (m : M W A) (k : A -> M W B) (st st1 : state W) (a : A) :
  m st = (Returns a, st1) -> bind m k st = k a st1.
Proof. intros H. unfold bind. now rewrite H. Qed.

Lemma call_returns {W A} (oracle : W -> outcome A * W) (st : state W) (a : A) :
  fst (oracle (world st)) = Returns a ->
  exists w, call oracle st = (Returns a, with_world st w).
Proof.
  unfold call. destruct (oracle (world st)) as [r w]. cbn [fst].
  intros ->. now exists w.
Qed.

Section Fetching.
Context {W R : Type} (E : Env W R).
Context (n : Z) (b : string).
Context (files : list changed_file).
Context (code : changed_file -> Z) (content : changed_file -> string).
Context (results_of : changed_file -> list R).

Hypothesis runs : pipeline_runs E n b files code content results_of.

Lemma validate_file_spec f acc st :
  In f (candidates files) ->
  exists st',
    validate_file E f acc st = (Returns (acc ++ outcomes code results_of [f]), st') /\
    db st' = db st /\
    trace st' = trace st ++ validation_events code [f].
Proof.
  intros Hf. unfold validate_file, outcomes, validation_events.
  cbn [List.filter flat_map].
  destruct (call_returns (requests_get E (raw_url f)) st _ (runs_get runs f _ Hf))
    as [w1 H1].
  rewrite (bind_returns _ _ _ _ _ H1). cbn [fst snd]. fold (fetched code f).
  destruct (fetched code f) eqn:Hfetched; cbn [flat_map].
  - unfold os_makedirs.
    rewrite (proj2 (String.eqb_neq _ _) (runs_dirname runs f Hf Hfetched)).
    destruct (call_returns (os_mkdir E (dirname (filename f))) (with_world st w1) _
                (runs_mkdir runs f _ Hf Hfetched)) as [w2 H2].
    rewrite (bind_returns _ _ _ _ _ H2).
    destruct (call_returns (write_file E (filename f) (content f))
                (with_world (with_world st w1) w2) _
                (runs_write runs f _ Hf Hfetched)) as [w3 H3].
    rewrite (bind_returns _ _ _ _ _ H3).
    unfold bind at 1, emit.
    destruct (call_returns (validate_fasta E (filename f))
                (with_event (with_world (with_world (with_world st w1) w2) w3)
                            (Info (Validating (filename f)))) _
                (runs_validate runs f _ Hf Hfetched)) as [w4 H4].
    rewrite (bind_returns _ _ _ _ _ H4).
    unfold bind, ret. rewrite !app_nil_r. eexists. split; [reflexivity|].
    split; [reflexivity|]. cbn [trace with_event with_world].
    now rewrite <- app_assoc.
  - unfold bind, emit, ret. rewrite !app_nil_r. eexists.
    split; [reflexivity|]. split; reflexivity.
Qed.

Lemma outcomes_cons f fs :
  outcomes code results_of (f :: fs) =
  outcomes code results_of [f] ++ outcomes code results_of fs.
Proof.
  unfold outcomes. cbn [List.filter]. destruct (fetched code f); cbn [flat_map].
  - now rewrite app_nil_r.
  - reflexivity.
Qed.

Lemma validation_events_cons f fs :
  validation_events code (f :: fs) =
  validation_events code [f] ++ validation_events code fs.
Proof. unfold validation_events. cbn [flat_map]. now rewrite app_nil_r. Qed.

Lemma validate_files_spec fs acc st :
  (forall f, In f fs -> In f (candidates files)) ->
  exists st',
    validate_files E fs acc st = (Returns (acc ++ outcomes code results_of fs), st') /\
    db st' = db st /\
    trace st' = trace st ++ validation_events code fs.
Proof.
  revert acc st. induction fs as [|f fs IH]; intros acc st Hfs.
  - exists st. unfold outcomes, validation_events. cbn. now rewrite !app_nil_r.
  - destruct (validate_file_spec f acc st) as (st1 & H1 & Hdb1 & Htr1);
      [apply Hfs; now left|].
    destruct (IH (acc ++ outcomes code results_of [f]) st1) as (st2 & H2 & Hdb2 & Htr2);
      [intros g Hg; apply Hfs; now right|].
    exists st2. cbn [validate_files]. rewrite (bind_returns _ _ _ _ _ H1).
    rewrite H2, Hdb2, Hdb1, Htr2, Htr1.
    rewrite (outcomes_cons f fs), (validation_events_cons f fs).
    now rewrite <- !app_assoc.
Qed.

Lemma fetch_pr_spec st :
  exists st',
    fetch_pr E n b st = (Returns tt, st') /\
    db st' = db st /\ trace st' = trace st.
Proof.
  unfold fetch_pr.
  destruct (call_returns (os_chdir E) st _ (runs_chdir runs _)) as [w1 H1].
  rewrite (bind_returns _ _ _ _ _ H1).
  destruct (runs_git_fetch runs (world (with_world st w1))) as [rc2 Hrc2].
  destruct (call_returns (git_fetch E b n) _ _ Hrc2) as [w2 H2].
  rewrite (bind_returns _ _ _ _ _ H2).
  destruct (runs_git_checkout runs (world (with_world (with_world st w1) w2)))
    as [rc3 Hrc3].
  destruct (call_returns (git_checkout E n) _ _ Hrc3) as [w3 H3].
  rewrite (bind_returns _ _ _ _ _ H3). unfold ret.
  eexists. repeat split.
Qed.

Lemma run_validation_spec st :
  exists st',
    run_validation E n b st =
      (Returns (outcomes code results_of (candidates files)), st') /\
    db st' = db st /\
    trace st' =
      trace st ++ [Enter_run_validation n b] ++
      validation_events code (candidates files).
Proof.
  unfold run_validation. unfold bind at 1, emit.
  destruct (fetch_pr_spec (with_event st (Enter_run_validation n b)))
    as (st1 & H1 & Hdb1 & Htr1).
  rewrite (bind_returns _ _ _ _ _ H1).
  destruct (call_returns (api_pr_files E n) st1 _ (runs_files runs _)) as [w2 H2].
  unfold get_pr_files. rewrite (bind_returns _ _ _ _ _ H2).
  unfold bind at 1, fasta_only, ret. fold (candidates files).
  destruct (validate_files_spec (candidates files) [] (with_world st1 w2))
    as (st' & H & Hdb & Htr); [auto|].
  exists st'. rewrite H, Hdb, Htr. cbn [db trace with_world].
  rewrite Hdb1, Htr1. repeat split.
  cbn [trace with_event]. now rewrite <- app_assoc.
Qed.

End Fetching.

Lemma outcomes_one_each {R} code (results_of : changed_file -> list R) fs :
  (forall f, In f fs -> fetched code f = true -> length (results_of f) = 1%nat) ->
  length (outcomes code results_of fs) = length (List.filter (fetched code) fs).
Proof.
  intros H. unfold outcomes.
  rewrite (flat_map_constant_length (c := 1%nat)); [lia|].
  intros f Hf. apply filter_In in Hf as [Hf Hfetched].
  rewrite length_map. now apply H.
Qed.

(** C5, amended.  Take an admitted request with N candidate content files
    of which M are answered with a status code other than 200, in a world
    where nothing else goes wrong and every fetched file lies in a
    directory.  Then each failed file is skipped with an error log, the
    other N - M files are validated in the order listed, the outcomes are
    one entry per result of each validated file (N - M of them when every
    validated file yields exactly one result), one comment rendering them
    is posted, and the row ends ['completed']. *)
Theorem fetch_failures_are_skipped {W R} (E : Env W R)
    (n : Z) (b : string) (files : list changed_file)
    (code : changed_file -> Z) (content : changed_file -> string)
    (results_of : changed_file -> list R)
    (st : state W) (comment : string) :
  absent_or_pending (db st) n ->
  pipeline_runs E n b files code content results_of ->
  render E (outcomes code results_of (candidates files)) comment_header
    = Returns comment ->
  let fs := candidates files in
  let N := length fs in
  let M := length (List.filter (fun f => negb (fetched code f)) fs) in
  exists st' response,
    process_pr E n b st = (Returns tt, st') /\
    trace st' =
      trace st ++
      [Enter_process_pr n b; Sql_select n;
       Sql_insert_or_replace n "processing" (clock E (world st));
       Enter_run_validation n b] ++
      validation_events code fs ++
      [Http_post n comment (Returns response);
       Sql_update n "completed" (clock E (world st'))] /\
    db st' =
      <[n := {| status := "completed";
                last_updated := clock E (world st') |}]> (db st) /\
    (M <= N)%nat /\
    length (List.filter (fetched code) fs) = (N - M)%nat /\
    ((forall f, In f fs -> fetched code f = true -> length (results_of f) = 1%nat) ->
       length (outcomes code results_of fs) = (N - M)%nat).
Proof.
  intros Hadm Hruns Hrender fs N M.
  destruct (run_validation_spec E n b files code content results_of Hruns
              (claimed E n b st)) as (st2 & Hrun & Hdb2 & Htr2).
  pose proof (process_pr_after_validation E n b st st2 _ comment
                Hadm Hrun Hrender) as H.
  cbv zeta in H.
  destruct (runs_post Hruns comment (world st2)) as [response Hresp].
  destruct (requests_post E n comment (world st2)) as [r w3].
  cbn [fst] in Hresp. subst r. destruct H as (Hw & Hdb & Htr).
  exists (snd (process_pr E n b st)), response.
  assert (Hlen : (length (List.filter (fetched code) fs) + M = N)%nat)
    by apply filter_length.
  split; [|split; [|split; [|split; [|split]]]].
  - pose proof (process_pr_returns E n b st) as Hret.
    destruct (process_pr E n b st) as [r s']. cbn [fst snd] in *. now subst r.
  - rewrite Htr, Htr2, Hw.
    cbn [claimed snd insert_or_replace checked trace with_event with_db].
    now rewrite <- !app_assoc.
  - now rewrite Hdb, Hw.
  - lia.
  - lia.
  - intros Hone. rewrite (outcomes_one_each code results_of fs Hone). lia.
Qed.

(** C5 refuted: request 42 has two candidate files, of which one is
    answered 404; the validator finds two records in the other one, so two
    outcomes are produced and posted, not 2 - 1. *)
Lemma two_outcomes_for_one_file :
  let E := Scripted.env Scripted.two_records in
  let st := Scripted.start 1000 ∅ in
  let fs := candidates Scripted.files42 in
  let outs := [("data/seq1.fasta", "first record");
               ("data/seq1.fasta", "second record")]%string in
  map raw_url fs = ["raw/seq1"; "raw/seq3"]%string /\
  fst (requests_get E "raw/seq1" 0) = Returns (200, ">s1"%string) /\
  fst (requests_get E "raw/seq3" 0) = Returns (404, ""%string) /\
  fst (run_validation E 42 "add-seqs" st) = Returns outs /\
  (exists body,
     render E outs comment_header = Returns body /\
     In (Http_post 42 body (Returns 201))
        (trace (snd (process_pr E 42 "add-seqs" st)))) /\
  length outs <> (2 - 1)%nat.
Proof.
  vm_compute. repeat split; try discriminate.
  eexists. split; [reflexivity|]. auto 20.
Qed.

Lemma scripted_healthy_runs :
  pipeline_runs (Scripted.env Scripted.healthy) 42 "add-seqs" Scripted.files42
    (fun f => if String.eqb (raw_url f) "raw/seq3" then 404 else 200)
    (fun f => if String.eqb (raw_url f) "raw/seq3" then EmptyString else ">s1"%string)
    (fun f => [("result of " +:+ filename f)%string]).
Proof.
  split; intros; simpl; eauto.
  - destruct (String.eqb (raw_url f) "raw/seq3"); reflexivity.
  - unfold candidates in H. simpl in H.
    destruct H as [<- | [<- | []]]; vm_compute; discriminate.
Qed.

(** C5 amended, on the scripted world: of the two candidate files of
    request 42 one is answered 404; the other one is validated, its single
    outcome is posted, and the row ends ['completed']. *)
Lemma fetch_failures_are_skipped_witness :
  let E := Scripted.env Scripted.healthy in
  let st := Scripted.start 1000 ∅ in
  let comment := ("## Validation Results" +:+ nl +:+ nl
                  +:+ "### data/seq1.fasta" +:+ nl
                  +:+ "Barcode Rank: 1" +:+ nl
                  +:+ "Full Rank: 2" +:+ nl
                  +:+ "Messages:" +:+ nl +:+ "result of data/seq1.fasta"
                  +:+ nl +:+ nl)%string in
  exists st' response,
    process_pr E 42 "add-seqs" st = (Returns tt, st') /\
    trace st' =
      [Enter_process_pr 42 "add-seqs"; Sql_select 42;
       Sql_insert_or_replace 42 "processing" 1000;
       Enter_run_validation 42 "add-seqs";
       Info (Validating "data/seq1.fasta");
       Info (Validation_complete "data/seq1.fasta");
       Error (Failed_to_fetch "data/seq3.fas" 404);
       Http_post 42 comment (Returns response);
       Sql_update 42 "completed" (clock E (world st'))] /\
    db st' =
      <[42 := {| status := "completed"; last_updated := clock E (world st') |}]> ∅.
Proof.
  intros E st comment.
  destruct (fetch_failures_are_skipped E 42 "add-seqs" Scripted.files42
              (fun f => if String.eqb (raw_url f) "raw/seq3" then 404 else 200)
              (fun f => if String.eqb (raw_url f) "raw/seq3" then EmptyString
                        else ">s1"%string)
              (fun f => [("result of " +:+ filename f)%string])
              st comment (or_introl eq_refl) scripted_healthy_runs eq_refl)
    as (st' & response & H1 & H2 & H3 & _).
  exists st', response. split; [exact H1|]. split; [exact H2 | exact H3].
Defined.

(** The example of the specification, with the three files at the root of
    the repository: [os.path.dirname] of [seq1.fasta] is empty,
    [os.makedirs] refuses the empty path, and the request ends ['error']
    with nothing validated and nothing posted. *)
Example root_level_file_ends_in_error :
  process_pr (Scripted.env Scripted.at_root) 42 "add-seqs" (Scripted.start 1000 ∅) =
    (Returns tt,
     {| world := 1005;
        db := {[ 42 := {| status := "error"; last_updated := 1005 |} ]};
        trace := [Enter_process_pr 42 "add-seqs"; Sql_select 42;
                  Sql_insert_or_replace 42 "processing" 1000;
                  Enter_run_validation 42 "add-seqs";
                  Error (Error_processing 42 FileNotFoundError);
                  Sql_update 42 "error" 1005] |}).
Proof. reflexivity. Qed.

(** * Further properties of the daemon *)

(** ** One call of [process_pr] *)

Section OneCall.
Context {W R : Type} (E : Env W R).

Lemma pipeline_db n b st : db (snd (pipeline E n b st)) = db st.
Proof.
  assert (H : preserved (fun s => db s = db st) (pipeline E n b)).
  { apply preserved_bind.
    - apply (preserved_run_validation E (fun s => db s = db st) (fun _ => True));
        auto.
    - intros results.
      apply (preserved_post_comment E (fun s => db s = db st) (fun _ => True));
        auto. }
  now apply H.
Qed.

Lemma settled_db n r st :
  db (settled E n r st) =
  alter (fun _ => {| status := match r with
                               | Returns _ => "completed"
                               | Raises _ => "error"
                               end;
                     last_updated := clock E (world st) |}) n (db st).
Proof. destruct r; reflexivity. Qed.

Lemma settled_world n r st : world (settled E n r st) = world st.
Proof. destruct r; reflexivity. Qed.

(** The table an admitted call leaves. *)
Lemma process_pr_admitted_db n b st :
  admitted (status <$> db st !! n) = true ->
  let st' := snd (process_pr E n b st) in
  db st' =
  <[n := {| status := match fst (pipeline E n b (claimed E n b st)) with
                      | Returns _ => "completed"
                      | Raises _ => "error"
                      end;
            last_updated := clock E (world st') |}]> (db st).
Proof.
  intros H st'. subst st'. rewrite (process_pr_admitted E n b st H). cbn [snd].
  rewrite settled_db, settled_world, pipeline_db.
  cbn [claimed snd insert_or_replace db with_event with_db checked].
  now rewrite alter_insert_eq.
Qed.

Lemma process_pr_other_rows n b st m :
  m <> n -> db (snd (process_pr E n b st)) !! m = db st !! m.
Proof.
  intros Hne. destruct (admitted (status <$> db st !! n)) eqn:H.
  - rewrite (process_pr_admitted_db n b st H).
    now rewrite lookup_insert_ne by congruence.
  - now rewrite (process_pr_declined E n b st H).
Qed.

(** X2.  [process_pr] reads and writes the row of its own request only:
    the row of every other request is after the call what it was
    before. *)
Theorem process_pr_touches_one_row (n : Z) (b : string) (st : state W) (m : Z) :
  m <> n ->
  db (snd (process_pr E n b st)) !! m = db st !! m.
Proof. apply process_pr_other_rows. Qed.

(** X3.  An admitted call always settles its row: when [process_pr]
    returns, the row of the request says ['completed'] if the pipeline
    (validation, then the comment) returned, and ['error'] if it raised,
    never ['processing'], with the time of the end of the call; the rest
    of the table is as before. *)
Theorem admitted_call_settles (n : Z) (b : string) (st : state W) :
  absent_or_pending (db st) n ->
  let st' := snd (process_pr E n b st) in
  exists s,
    db st' = <[n := {| status := s; last_updated := clock E (world st') |}]> (db st) /\
    (s = "completed"%string \/ s = "error"%string) /\
    (s = "completed"%string <->
     fst (pipeline E n b (claimed E n b st)) = Returns tt).
Proof.
  intros Hadm st'. apply admitted_absent_or_pending in Hadm.
  pose proof (process_pr_admitted_db n b st Hadm) as Hdb. cbv zeta in Hdb.
  fold st' in Hdb.
  destruct (fst (pipeline E n b (claimed E n b st))) as [[]|e].
  - exists "completed"%string. split; [exact Hdb|]. split; [now left | tauto].
  - exists "error"%string. split; [exact Hdb|]. split; [now right|].
    split; discriminate.
Qed.

(** X4.  A second call of [process_pr] for the same request, right after
    a first one, is always declined, whatever the first did and whatever
    the branch: it changes neither the table nor the world. *)
Theorem second_call_declined (n : Z) (b1 b2 : string) (st : state W) :
  let st1 := snd (process_pr E n b1 st) in
  process_pr E n b2 st1 = (Returns tt, checked n b2 st1).
Proof.
  intros st1. apply process_pr_declined.
  destruct (admitted (status <$> db st !! n)) eqn:H.
  - subst st1. rewrite (process_pr_admitted_db n b1 st H), lookup_insert_eq.
    destruct (fst (pipeline E n b1 (claimed E n b1 st))); reflexivity.
  - subst st1. now rewrite (process_pr_declined E n b1 st H).
Qed.

End OneCall.

(** X2 on the scripted world: processing request 42 leaves the row of
    request 7 alone. *)
Lemma process_pr_touches_one_row_witness :
  let E := Scripted.env Scripted.healthy in
  let st := Scripted.start 1000
              ({[ 7 := {| status := "error"; last_updated := 500 |} ]} : store) in
  db (snd (process_pr E 42 "add-seqs" st)) !! 7 = db st !! 7.
Proof.
  intros E st.
  apply (process_pr_touches_one_row E 42 "add-seqs" st 7). discriminate.
Defined.

(** X3 on the scripted world where the POST raises. *)
Lemma admitted_call_settles_witness :
  let E := Scripted.env Scripted.post_unreachable in
  let st := Scripted.start 1000 ∅ in
  let st' := snd (process_pr E 42 "add-seqs" st) in
  exists s,
    db st' = <[42 := {| status := s; last_updated := clock E (world st') |}]> (db st) /\
    (s = "completed"%string \/ s = "error"%string) /\
    (s = "completed"%string <->
     fst (pipeline E 42 "add-seqs" (claimed E 42 "add-seqs" st)) = Returns tt).
Proof.
  intros E st.
  exact (admitted_call_settles E 42 "add-seqs" st (or_introl eq_refl)).
Defined.

(** ** The table through the loop *)

Section TableThroughLoop.
Context {W R : Type} (E : Env W R).

Lemma preserved_main_loop_rows (I : state W -> Prop) cycles :
  (forall st w, I st -> I (with_world st w)) ->
  (forall st ev, I st -> I (with_event st ev)) ->
  (forall n b, listed E n -> preserved I (process_pr E n b)) ->
  preserved I (main_loop E cycles).
Proof.
  intros Hw He Hp.
  apply (preserved_main_loop E I (fun _ => True)); auto.
Qed.

Lemma process_pr_keeps_rows n b st k :
  is_Some (db st !! k) -> is_Some (db (snd (process_pr E n b st)) !! k).
Proof.
  intros Hk. destruct (decide (k = n)) as [->|Hne].
  - destruct (admitted (status <$> db st !! n)) eqn:H.
    + rewrite (process_pr_admitted_db E n b st H), lookup_insert_eq. eauto.
    + now rewrite (process_pr_declined E n b st H).
  - now rewrite process_pr_other_rows.
Qed.

(** X5.  A row whose status is not ['pending'] is frozen: through any
    number of cycles, in any world, the loop leaves it exactly as it is.
    So a request that ended in ['error'] is never retried, and a request
    that a crash left in ['processing'] is never picked up again. *)
Theorem non_pending_rows_frozen
    (cycles : nat) (w : W) (table : store) (n : Z) (r : row) :
  table !! n = Some r ->
  status r <> "pending"%string ->
  db (snd (main_loop E cycles {| world := w; db := table; trace := [] |})) !! n
  = Some r.
Proof.
  intros Hn Hr.
  apply (preserved_main_loop_rows (fun s => db s !! n = Some r) cycles); auto.
  intros m b _ st H. destruct (decide (m = n)) as [->|Hne].
  - rewrite process_pr_declined; [exact H|].
    rewrite H. cbn. now apply String.eqb_neq.
  - rewrite process_pr_other_rows by congruence. exact H.
Qed.

(** X6.  The loop touches the rows of listed requests only: a request
    that the remote never lists as open keeps its row, or its lack of a
    row, through any number of cycles. *)
Theorem unlisted_rows_untouched
    (cycles : nat) (w : W) (table : store) (m : Z) :
  ~ listed E m ->
  db (snd (main_loop E cycles {| world := w; db := table; trace := [] |})) !! m
  = table !! m.
Proof.
  intros Hm.
  apply (preserved_main_loop_rows (fun s => db s !! m = table !! m) cycles); auto.
  intros n b Hn st H. rewrite process_pr_other_rows; [exact H|].
  intros ->. contradiction.
Qed.

(** X7.  The loop never deletes a row: every request that has a row
    before a run of the loop has one after it. *)
Theorem rows_never_deleted (cycles : nat) (w : W) (table : store) :
  dom table ⊆
  dom (db (snd (main_loop E cycles {| world := w; db := table; trace := [] |}))).
Proof.
  intros k Hk. apply elem_of_dom. apply elem_of_dom in Hk.
  apply (preserved_main_loop_rows (fun s => is_Some (db s !! k)) cycles); auto.
  intros n b _ st H. now apply process_pr_keeps_rows.
Qed.

End TableThroughLoop.

(** X5 on the scripted world: request 42 is listed and has a FASTA file,
    but its row says ['error'] and stays so. *)
Lemma non_pending_rows_frozen_witness :
  let E := Scripted.env Scripted.healthy in
  let r := {| status := "error"; last_updated := 500 |} in
  db (snd (main_loop E 3 (Scripted.start 1000 ({[ 42 := r ]} : store)))) !! 42
  = Some r.
Proof.
  intros E r.
  apply (non_pending_rows_frozen E 3 1000 {[ 42 := r ]} 42 r);
    [reflexivity | discriminate].
Defined.

(** X6 on the scripted world, which lists request 42 only. *)
Lemma unlisted_rows_untouched_witness :
  let E := Scripted.env Scripted.healthy in
  let table : store := {[ 7 := {| status := "pending"; last_updated := 500 |} ]} in
  db (snd (main_loop E 3 (Scripted.start 1000 table))) !! 7 = table !! 7.
Proof.
  intros E table.
  apply (unlisted_rows_untouched E 3 1000 table 7).
  intros H. apply scripted_listed_healthy in H. discriminate.
Defined.

(** ** What the validation does and what its failure does *)

Section Validation.
Context {W R : Type} (E : Env W R).

Section Logs.
Context (I : state W -> Prop).
Hypothesis stable_world :
  forall st w, env_step E (world st) w -> I st -> I (with_world st w).
Hypothesis stable_log :
  forall st ev, is_log ev = true -> I st -> I (with_event st ev).

Local Ltac log_call :=
  apply (preserved_call E I stable_world); intros; constructor.
Local Ltac log_emit :=
  apply (preserved_emit I (fun ev => is_log ev = true) stable_log); reflexivity.

Lemma logs_validate_file file acc : preserved I (validate_file E file acc).
Proof.
  unfold validate_file.
  apply preserved_bind; [log_call|]. intros response.
  destruct (fst response =? 200).
  - apply preserved_bind;
      [apply (preserved_os_makedirs E I stable_world)|]. intros _.
    apply preserved_bind; [log_call|]. intros _.
    apply preserved_bind; [log_emit|]. intros _.
    apply preserved_bind; [log_call|]. intros results.
    apply preserved_bind; [log_emit|]. intros _.
    apply preserved_ret.
  - apply preserved_bind; [log_emit|]. intros _. apply preserved_ret.
Qed.

Lemma logs_validate_files files acc : preserved I (validate_files E files acc).
Proof.
  revert acc. induction files as [|file rest IH]; intros acc; simpl.
  - apply preserved_ret.
  - apply preserved_bind; [apply logs_validate_file | intros; apply IH].
Qed.

Lemma logs_validation_body n b : preserved I (validation_body E n b).
Proof.
  unfold validation_body.
  apply preserved_bind; [apply (preserved_fetch_pr E I stable_world)|]. intros _.
  apply preserved_bind; [apply (preserved_get_pr_files E I stable_world)|].
  intros files. apply preserved_bind; [apply preserved_fasta_only|].
  intros fasta_files. apply logs_validate_files.
Qed.
End Logs.

Lemma logged_after_event t0 d (st : state W) ev :
  is_log ev = true -> logged_after t0 d st -> logged_after t0 d (with_event st ev).
Proof.
  intros Hev (Hdb & evs & Htr & Hlogs). split; [exact Hdb|].
  exists (evs ++ [ev]). cbn [trace with_event]. rewrite Htr, app_assoc.
  split; [reflexivity|]. apply Forall_app. split; [exact Hlogs|].
  now repeat constructor.
Qed.

Lemma run_validation_logged n b st :
  logged_after (trace st ++ [Enter_run_validation n b]) (db st)
    (snd (run_validation E n b st)).
Proof.
  rewrite run_validation_unfold.
  apply (logs_validation_body
           (logged_after (trace st ++ [Enter_run_validation n b]) (db st))).
  - intros s w _ H. exact H.
  - intros s ev. apply logged_after_event.
  - split; [reflexivity|]. exists []. cbn [trace with_event].
    now rewrite app_nil_r.
Qed.

(** X8.  [run_validation] never writes to the table, never posts and
    never sleeps: however it ends, the table is as before and, after the
    mark of its entry, it has traced log lines only. *)
Theorem run_validation_only_logs (n : Z) (b : string) (st : state W) :
  let st' := snd (run_validation E n b st) in
  db st' = db st /\
  exists evs,
    trace st' = trace st ++ Enter_run_validation n b :: evs /\
    Forall (fun ev => is_log ev = true) evs.
Proof.
  intros st'. destruct (run_validation_logged n b st) as (Hdb & evs & Htr & Hlogs).
  split; [exact Hdb|]. exists evs. split; [|exact Hlogs].
  subst st'. now rewrite Htr, <- app_assoc.
Qed.

(** X9.  Whatever makes the validation of an admitted request raise (the
    listing of its files, a fetch, the making of a directory, the saving
    of a file, the validator), the results gathered so far are dropped:
    the exception is logged, the row is set to ['error'] and nothing is
    posted. *)
Theorem validation_failure_marks_error
    (n : Z) (b : string) (st : state W) (e : exn) :
  absent_or_pending (db st) n ->
  fst (run_validation E n b (claimed E n b st)) = Raises e ->
  let st' := snd (process_pr E n b st) in
  db st' = <[n := {| status := "error"; last_updated := clock E (world st') |}]> (db st) /\
  exists evs,
    trace st' =
      trace st ++
      [Enter_process_pr n b; Sql_select n;
       Sql_insert_or_replace n "processing" (clock E (world st));
       Enter_run_validation n b] ++
      evs ++
      [Error (Error_processing n e);
       Sql_update n "error" (clock E (world st'))] /\
    Forall (fun ev => is_log ev = true) evs.
Proof.
  intros Hadm Hrun st'. apply admitted_absent_or_pending in Hadm.
  destruct (run_validation_logged n b (claimed E n b st))
    as (Hdb & evs & Htr & Hlogs).
  subst st'. rewrite (process_pr_admitted E n b st Hadm).
  unfold pipeline, bind.
  destruct (run_validation E n b (claimed E n b st)) as [r st2].
  cbn [fst snd] in *. subst r.
  cbn [fst snd settled update world db trace with_event with_db].
  rewrite Hdb, Htr. split.
  - cbn [claimed snd insert_or_replace db with_event with_db checked].
    now rewrite alter_insert_eq.
  - exists evs. split; [|exact Hlogs].
    cbn [claimed snd insert_or_replace trace with_event with_db checked].
    now rewrite <- !app_assoc.
Qed.

End Validation.

(** X9 on the specification's example with the files at the root of the
    repository, where making the directory of [seq1.fasta] raises. *)
Lemma validation_failure_marks_error_witness :
  let E := Scripted.env Scripted.at_root in
  let st := Scripted.start 1000 ∅ in
  let st' := snd (process_pr E 42 "add-seqs" st) in
  db st' = <[42 := {| status := "error"; last_updated := clock E (world st') |}]> (db st) /\
  exists evs,
    trace st' =
      trace st ++
      [Enter_process_pr 42 "add-seqs"; Sql_select 42;
       Sql_insert_or_replace 42 "processing" (clock E (world st));
       Enter_run_validation 42 "add-seqs"] ++
      evs ++
      [Error (Error_processing 42 FileNotFoundError);
       Sql_update 42 "error" (clock E (world st'))] /\
    Forall (fun ev => is_log ev = true) evs.
Proof.
  intros E st.
  exact (validation_failure_marks_error E 42 "add-seqs" st FileNotFoundError
           (or_introl eq_refl) eq_refl).
Defined.

(** ** The comment *)

Lemma string_app_assoc (a b c : string) :
  ((a +:+ b) +:+ c = a +:+ (b +:+ c))%string.
Proof.
  induction a as [|x a IH]; [reflexivity|].
  change (String x ((a +:+ b) +:+ c) = String x (a +:+ (b +:+ c)))%string.
  now rewrite IH.
Qed.

Section Comment.
Context {W R : Type} (E : Env W R).

Lemma render_cons file result rest comment :
  render E ((file, result) :: rest) comment =
  match calculate_ranks E result with
  | Returns ranks => render E rest (comment +:+ section_text file ranks)%string
  | Raises e => Raises e
  end.
Proof.
  cbn [render]. destruct (calculate_ranks E result) as [[[x y] z]|e]; reflexivity.
Qed.

Lemma render_outcome results comment :
  match render E results comment with
  | Returns _ =>
      Forall (fun fr => exists ranks, calculate_ranks E (snd fr) = Returns ranks)
             results
  | Raises e =>
      exists before file result after,
        results = before ++ (file, result) :: after /\
        calculate_ranks E result = Raises e /\
        Forall (fun fr => exists ranks, calculate_ranks E (snd fr) = Returns ranks)
               before
  end.
Proof.
  revert comment. induction results as [|[file result] rest IH]; intros comment.
  - constructor.
  - rewrite render_cons.
    destruct (calculate_ranks E result) as [ranks|e] eqn:Hranks.
    + specialize (IH (comment +:+ section_text file ranks)%string).
      destruct (render E rest _) as [text|e].
      * constructor; [now exists ranks | exact IH].
      * destruct IH as (before & f & r & after & -> & Hr & Hbefore).
        exists ((file, result) :: before), f, r, after.
        split; [reflexivity|]. split; [exact Hr|].
        constructor; [now exists ranks | exact Hbefore].
    + exists [], file, result, rest. repeat split; [exact Hranks | constructor].
Qed.

(** X10.  When every result can be summarised, the comment that
    [post_comment] builds is the text it starts from followed by one
    section per result, in the order of the results. *)
Theorem render_concat
    (results : list (string * R)) (ranks_of : R -> string * string * string)
    (comment : string) :
  (forall file result, In (file, result) results ->
     calculate_ranks E result = Returns (ranks_of result)) ->
  render E results comment =
  Returns (comment +:+
           fold_right String.append EmptyString
             (map (fun fr => section_text (fst fr) (ranks_of (snd fr))) results))%string.
Proof.
  revert comment. induction results as [|[file result] rest IH];
    intros comment Hranks.
  - cbn. f_equal. induction comment as [|x c IHc]; [reflexivity|].
    change (String x c = String x (c +:+ EmptyString)%string). now rewrite <- IHc.
  - rewrite render_cons, (Hranks file result) by now left.
    rewrite IH by (intros f r Hin; apply (Hranks f r); now right).
    cbn [map fold_right fst snd]. now rewrite string_app_assoc.
Qed.

(** X11.  [post_comment] posts all or nothing.  If the summary of some
    result raises, the exception of the first such result leaves
    [post_comment] before anything is sent, and the state is untouched;
    otherwise exactly one comment is posted, and the table is as
    before. *)
Theorem post_comment_all_or_nothing
    (n : Z) (results : list (string * R)) (st : state W) :
  match render E results comment_header with
  | Returns comment =>
      Forall (fun fr => exists ranks, calculate_ranks E (snd fr) = Returns ranks)
             results /\
      exists r w,
        requests_post E n comment (world st) = (r, w) /\
        snd (post_comment E n results st) =
          {| world := w; db := db st;
             trace := trace st ++ [Http_post n comment r] |}
  | Raises e =>
      post_comment E n results st = (Raises e, st) /\
      exists before file result after,
        results = before ++ (file, result) :: after /\
        calculate_ranks E result = Raises e /\
        Forall (fun fr => exists ranks, calculate_ranks E (snd fr) = Returns ranks)
               before
  end.
Proof.
  pose proof (render_outcome results comment_header) as H.
  unfold post_comment.
  destruct (render E results comment_header) as [comment|e].
  - split; [exact H|]. unfold http_post.
    destruct (requests_post E n comment (world st)) as [r w].
    exists r, w. split; reflexivity.
  - split; [reflexivity | exact H].
Qed.

End Comment.

(** X10 on the scripted world. *)
Lemma render_concat_witness :
  let E := Scripted.env Scripted.healthy in
  render E [("a/x.fa", "r1"); ("b/y.fa", "r2")]%string comment_header =
  Returns (comment_header +:+
           (section_text "a/x.fa" ("1", "2", "r1") +:+
            (section_text "b/y.fa" ("1", "2", "r2") +:+ EmptyString)))%string.
Proof.
  intros E.
  exact (render_concat E [("a/x.fa", "r1"); ("b/y.fa", "r2")]%string
           (fun r => ("1", "2", r)%string) comment_header
           (fun _ _ _ => eq_refl)).
Defined.

(** ** Files at the root of the repository *)

Lemma head_of_empty p : head_of p = EmptyString <-> has_slash p = false.
Proof.
  destruct p as [|c p]; [split; reflexivity|].
  cbn [head_of]. destruct (has_slash (String c p)); split;
    intros H; try reflexivity; discriminate.
Qed.

Lemma rstrip_slash_empty s : rstrip_slash s = EmptyString -> all_slashes s = true.
Proof.
  induction s as [|c s IH]; [reflexivity|]. cbn [rstrip_slash all_slashes].
  destruct (Ascii.eqb c slash); [|discriminate].
  destruct (String.eqb (rstrip_slash s) EmptyString) eqn:Hr; [|discriminate].
  intros _. apply String.eqb_eq in Hr. now rewrite IH.
Qed.

Lemma dirname_empty p : dirname p = EmptyString <-> has_slash p = false.
Proof.
  rewrite <- head_of_empty. unfold dirname.
  destruct (String.eqb (head_of p) EmptyString) eqn:Hhead; cbn [negb andb].
  - reflexivity.
  - destruct (all_slashes (head_of p)) eqn:Hall; cbn [negb]; [reflexivity|].
    apply String.eqb_neq in Hhead. split; [|contradiction].
    intros H. apply rstrip_slash_empty in H. congruence.
Qed.

Section RootFiles.
Context {W R : Type} (E : Env W R).

(** X12.  The directory that [run_validation] makes for a file is the
    empty path exactly when the file name has no slash, and then
    [os.makedirs] raises [FileNotFoundError] without touching anything;
    for every other name the directory is made by the file system. *)
Theorem makedirs_of_dirname (name : string) (st : state W) :
  if has_slash name
  then dirname name <> EmptyString /\
       os_makedirs E (dirname name) st = call (os_mkdir E (dirname name)) st
  else os_makedirs E (dirname name) st = (Raises FileNotFoundError, st).
Proof.
  unfold os_makedirs. destruct (has_slash name) eqn:Hs.
  - assert (Hd : dirname name <> EmptyString).
    { intros Hd. apply dirname_empty in Hd. congruence. }
    split; [exact Hd|]. now rewrite (proj2 (String.eqb_neq _ _) Hd).
  - now rewrite (proj2 (dirname_empty name) Hs).
Qed.

(** X13.  A candidate file at the root of the repository whose fetch is
    answered 200 ends the validation of the whole request: the loop over
    the files raises [FileNotFoundError] before the file is saved or
    validated, the results gathered from the files before it are lost
    and the files after it are not fetched. *)
Theorem root_level_file_raises
    (f : changed_file) (rest : list changed_file) (acc : list (string * R))
    (st : state W) (content : string) (w : W) :
  has_slash (filename f) = false ->
  requests_get E (raw_url f) (world st) = (Returns (200, content), w) ->
  validate_files E (f :: rest) acc st = (Raises FileNotFoundError, with_world st w).
Proof.
  intros Hs Hget. cbn [validate_files]. unfold bind at 1, validate_file.
  unfold bind at 1, call. rewrite Hget. cbn [fst snd Z.eqb Pos.eqb].
  unfold bind at 1.
  pose proof (makedirs_of_dirname (filename f) (with_world st w)) as Hmk.
  rewrite Hs in Hmk. now rewrite Hmk.
Qed.

End RootFiles.

(** X13 on the specification's example with the files at the root. *)
Lemma root_level_file_raises_witness :
  let E := Scripted.env Scripted.at_root in
  validate_files E (candidates Scripted.root_files42) [] (Scripted.start 1000 ∅)
  = (Raises FileNotFoundError, with_world (Scripted.start 1000 ∅) 1001).
Proof.
  intros E.
  exact (root_level_file_raises E
           {| filename := "seq1.fasta"; raw_url := "raw/seq1" |}
           [{| filename := "seq3.fas"; raw_url := "raw/seq3" |}] []
           (Scripted.start 1000 ∅) ">s1" 1001 eq_refl eq_refl).
Defined.

(** ** The two readings of a listing of files *)

Lemma existsb_filter {A} (p : A -> bool) (l : list A) :
  existsb p l = true <-> List.filter p l <> [].
Proof.
  induction l as [|x l IH]; cbn [existsb List.filter].
  - split; [discriminate | congruence].
  - destruct (p x); cbn [orb]; [split; [discriminate | reflexivity] | exact IH].
Qed.

(** X14.  [main] and [run_validation] read a listing of changed files
    alike: on an array, [main] selects the request exactly when
    [run_validation] finds at least one candidate file; on an error
    object with a key both raise [TypeError]; on an empty object [main]
    does not select and [run_validation] finds no candidate.  Neither
    changes the state. *)
Theorem any_fasta_agrees_with_fasta_only
    {W : Type} (files : json_list changed_file) (st : state W) :
  match any_fasta files st, fasta_only files st with
  | (Returns selected, st1), (Returns fasta_files, st2) =>
      st1 = st /\ st2 = st /\ (selected = true <-> fasta_files <> [])
  | (Raises e1, st1), (Raises e2, st2) =>
      st1 = st /\ st2 = st /\ e1 = TypeError /\ e2 = TypeError /\
      exists k keys, files = Object (k :: keys)
  | _, _ => False
  end.
Proof.
  destruct files as [items|[|k keys]]; cbn [any_fasta fasta_only ret raise].
  - repeat split; apply existsb_filter.
  - repeat split; [discriminate | congruence].
  - repeat split. now exists k, keys.
Qed.

(** ** Requests without any fetched file *)

Lemma outcomes_none_fetched {R} code (results_of : changed_file -> list R) fs :
  (forall f, In f fs -> fetched code f = false) ->
  outcomes code results_of fs = [].
Proof.
  intros H. unfold outcomes. induction fs as [|f fs IH]; [reflexivity|].
  cbn [List.filter]. rewrite (H f) by now left.
  apply IH. intros g Hg. apply H. now right.
Qed.

Lemma validation_events_none_fetched code fs :
  (forall f, In f fs -> fetched code f = false) ->
  validation_events code fs =
  map (fun f => Error (Failed_to_fetch (filename f) (code f))) fs.
Proof.
  intros H. unfold validation_events. induction fs as [|f fs IH]; [reflexivity|].
  cbn [flat_map map]. rewrite (H f) by now left. cbn [app]. f_equal.
  apply IH. intros g Hg. apply H. now right.
Qed.

(** X15.  When no candidate file of an admitted request can be fetched
    (or the request has no candidate file when its files are listed
    again), the request is still reported and completed: one error is
    logged per candidate, a comment holding the header alone is posted
    and the row is set to ['completed']. *)
Theorem no_fetched_file_posts_bare_header {W R} (E : Env W R)
    (n : Z) (b : string) (files : list changed_file)
    (code : changed_file -> Z) (content : changed_file -> string)
    (results_of : changed_file -> list R) (st : state W) :
  absent_or_pending (db st) n ->
  pipeline_runs E n b files code content results_of ->
  (forall f, In f (candidates files) -> fetched code f = false) ->
  exists st' response,
    process_pr E n b st = (Returns tt, st') /\
    status <$> db st' !! n = Some "completed"%string /\
    trace st' =
      trace st ++
      [Enter_process_pr n b; Sql_select n;
       Sql_insert_or_replace n "processing" (clock E (world st));
       Enter_run_validation n b] ++
      map (fun f => Error (Failed_to_fetch (filename f) (code f)))
          (candidates files) ++
      [Http_post n comment_header (Returns response);
       Sql_update n "completed" (clock E (world st'))].
Proof.
  intros Hadm Hruns Hnone.
  destruct (run_validation_spec E n b files code content results_of Hruns
              (claimed E n b st)) as (st2 & Hrun & Hdb2 & Htr2).
  rewrite (outcomes_none_fetched code results_of _ Hnone) in Hrun.
  rewrite (validation_events_none_fetched code _ Hnone) in Htr2.
  pose proof (process_pr_after_validation E n b st st2 [] comment_header
                Hadm Hrun eq_refl) as H.
  cbv zeta in H.
  destruct (runs_post Hruns comment_header (world st2)) as [response Hresp].
  destruct (requests_post E n comment_header (world st2)) as [r w3].
  cbn [fst] in Hresp. subst r. destruct H as (Hw & Hdb & Htr).
  exists (snd (process_pr E n b st)), response. split; [|split].
  - pose proof (process_pr_returns E n b st) as Hret.
    destruct (process_pr E n b st) as [r s']. cbn [fst snd] in *. now subst r.
  - now rewrite Hdb, lookup_insert_eq.
  - rewrite Htr, Htr2, Hw.
    cbn [claimed snd insert_or_replace checked trace with_event with_db].
    now rewrite <- !app_assoc.
Qed.

Lemma scripted_all_missing_runs :
  pipeline_runs (Scripted.env Scripted.all_missing) 42 "add-seqs" Scripted.files42
    (fun _ => 404) (fun _ => EmptyString) (fun _ => []).
Proof. split; intros; simpl; eauto; discriminate. Qed.

(** X15 on the scripted world where every fetch is answered 404. *)
Lemma no_fetched_file_posts_bare_header_witness :
  let E := Scripted.env Scripted.all_missing in
  let st := Scripted.start 1000 ∅ in
  exists st' response,
    process_pr E 42 "add-seqs" st = (Returns tt, st') /\
    status <$> db st' !! 42 = Some "completed"%string /\
    trace st' =
      [Enter_process_pr 42 "add-seqs"; Sql_select 42;
       Sql_insert_or_replace 42 "processing" 1000;
       Enter_run_validation 42 "add-seqs";
       Error (Failed_to_fetch "data/seq1.fasta" 404);
       Error (Failed_to_fetch "data/seq3.fas" 404);
       Http_post 42 comment_header (Returns response);
       Sql_update 42 "completed" (clock E (world st'))].
Proof.
  intros E st.
  exact (no_fetched_file_posts_bare_header E 42 "add-seqs" Scripted.files42
           (fun _ => 404) (fun _ => EmptyString) (fun _ => []) st
           (or_introl eq_refl) scripted_all_missing_runs (fun _ _ => eq_refl)).
Defined.

(** * Completed requests through the loop *)

(** ** The events of one call of [process_pr] *)

Section KeyedEvents.
Context {W R : Type} (E : Env W R).

Lemma keyed_after_event n t0 (st : state W) ev :
  keyed_by n ev -> keyed_after n t0 st -> keyed_after n t0 (with_event st ev).
Proof.
  intros Hev (evs & Htr & Hevs). exists (evs ++ [ev]).
  cbn [trace with_event]. rewrite Htr, app_assoc. split; [reflexivity|].
  apply Forall_app. split; [exact Hevs | now repeat constructor].
Qed.

Lemma keyed_by_log n ev : is_log ev = true -> keyed_by n ev.
Proof. destruct ev; try discriminate; intros _; exact Logic.I. Qed.

Lemma keyed_after_post_comment n t0 results :
  preserved (keyed_after n t0) (post_comment E n results).
Proof.
  intros st H. unfold post_comment.
  destruct (render E results comment_header) as [comment|e]; [|exact H].
  unfold http_post.
  destruct (requests_post E n comment (world st)) as [r w]. cbn [snd].
  now apply (keyed_after_event n t0 (with_world st w)).
Qed.

Lemma keyed_after_pipeline n b t0 st :
  keyed_after n t0 st -> keyed_after n t0 (snd (pipeline E n b st)).
Proof.
  intros H. unfold pipeline, bind. rewrite run_validation_unfold.
  assert (Hbody : keyed_after n t0
            (snd (validation_body E n b (with_event st (Enter_run_validation n b))))).
  { apply (logs_validation_body E (keyed_after n t0)).
    - intros s w _ Hs. exact Hs.
    - intros s ev Hev. apply keyed_after_event. now apply keyed_by_log.
    - now apply keyed_after_event. }
  destruct (validation_body E n b _) as [[results|e] st2]; cbn [snd] in *;
    [|exact Hbody].
  now apply keyed_after_post_comment.
Qed.

(** Whatever one call of [process_pr] for request [n] traces is a log
    line or names [n]. *)
Lemma process_pr_events_keyed n b st :
  keyed_after n (trace st) (snd (process_pr E n b st)).
Proof.
  assert (Hchecked : keyed_after n (trace st) (checked n b st)).
  { exists [Enter_process_pr n b; Sql_select n].
    cbn [checked trace with_event]. rewrite <- app_assoc.
    split; [reflexivity | now repeat constructor]. }
  destruct (admitted (status <$> db st !! n)) eqn:H.
  - rewrite (process_pr_admitted E n b st H). cbn [snd].
    assert (Hpipe : keyed_after n (trace st)
              (snd (pipeline E n b (claimed E n b st)))).
    { apply keyed_after_pipeline.
      now apply (keyed_after_event n (trace st) (with_db (checked n b st) _)). }
    destruct (fst (pipeline E n b (claimed E n b st))) as [[]|e];
      cbn [settled snd update].
    + now apply (keyed_after_event n (trace st) (with_db _ _)).
    + apply (keyed_after_event n (trace st) (with_db (with_event _ _) _));
        [reflexivity|].
      now apply keyed_after_event.
  - now rewrite (process_pr_declined E n b st H).
Qed.

End KeyedEvents.

(** ** Selection through the loop *)

(** The loop keeps an invariant that its idle events keep, as soon as
    processing a request that [main] can select keeps it. *)
Section SelectedOnly.
Context {W R : Type} (E : Env W R) (I : state W -> Prop).
Hypothesis stable_world : forall st w, I st -> I (with_world st w).
Hypothesis stable_idle :
  forall st ev, is_idle ev = true -> I st -> I (with_event st ev).
Hypothesis preserved_process_pr_selectable :
  forall n b, selectable E n -> preserved I (process_pr E n b).

Local Ltac idle_emit :=
  apply (preserved_emit I (fun ev => is_idle ev = true) stable_idle); reflexivity.

Lemma preserved_inspect_selectable (pr : pull + string) :
  (forall p, pr = inl p -> listed E (number p)) ->
  preserved I (inspect E pr).
Proof.
  intros Hpr. destruct pr as [p|k]; [|intros st H; exact H].
  change (preserved I
    (emit (Info (Inspecting_files (number p))) ;;
     files <- get_pr_files E (number p) ;;
     emit (Info (Found_files (py_len files) (number p))) ;;
     selected <- any_fasta files ;;
     if selected then process_pr E (number p) (head_ref p) else ret tt)).
  apply preserved_bind; [idle_emit|]. intros _.
  apply preserved_bind_val.
  { apply (preserved_get_pr_files E I). intros s w _. apply stable_world. }
  intros files st _ Hfiles Hst.
  lazymatch goal with
  | |- I (snd (?m ?s)) => cut (preserved I m); [intros Hp; now apply Hp|]
  end.
  apply preserved_bind; [idle_emit|]. intros _.
  destruct files as [items|[|k keys]].
  - change (preserved I
      (if existsb is_fasta items
       then process_pr E (number p) (head_ref p) else ret tt)).
    destruct (existsb is_fasta items) eqn:Hsel; [|apply preserved_ret].
    apply preserved_process_pr_selectable. split; [now apply Hpr|].
    exists (world st), items. split; [|exact Hsel].
    unfold get_pr_files, call in Hfiles.
    destruct (api_pr_files E (number p) (world st)) as [r w]. exact Hfiles.
  - intros s H. exact H.
  - intros s H. exact H.
Qed.

Lemma preserved_cycle_selectable : preserved I (cycle E).
Proof.
  unfold cycle.
  apply preserved_bind; [idle_emit|]. intros _.
  apply preserved_bind_val.
  { apply (preserved_get_open_prs E I). intros s w _. apply stable_world. }
  intros prs st _ Hprs Hst.
  assert (Hall : forall p, In (inl p) (py_iter prs) -> listed E (number p)).
  { intros p Hp. destruct prs as [items|keys]; simpl in Hp.
    - apply in_map_iff in Hp as (p' & Heq & Hin). injection Heq as ->.
      exists (world st), items, p. repeat split; [|exact Hin].
      unfold get_open_prs, call in Hprs.
      destruct (api_open_prs E (world st)) as [r w]. exact Hprs.
    - apply in_map_iff in Hp as (k & Heq & _). discriminate. }
  lazymatch goal with
  | |- I (snd (?m ?s)) => cut (preserved I m); [intros Hp; now apply Hp|]
  end.
  apply preserved_bind; [idle_emit|]. intros _.
  apply preserved_bind.
  - apply preserved_for_each. intros x Hx. apply preserved_inspect_selectable.
    intros p ->. now apply Hall.
  - intros _.
    apply (preserved_sleep E I (fun ev => is_idle ev = true));
      [intros s w _; apply stable_world | exact stable_idle | reflexivity].
Qed.

Lemma preserved_main_loop_selectable cycles : preserved I (main_loop E cycles).
Proof.
  induction cycles as [|n IH]; simpl.
  - apply preserved_ret.
  - apply preserved_bind; [apply preserved_cycle_selectable | intros _; exact IH].
Qed.

End SelectedOnly.

Section CompletedThroughLoop.
Context {W R : Type} (E : Env W R).

(** The pipeline is never entered for a completed request. *)
Lemma completed_quiet_main_loop n r cycles :
  status r = "completed"%string ->
  preserved (completed_quiet_invariant n r) (main_loop E cycles).
Proof.
  intros Hr.
  apply (preserved_main_loop_selectable E (completed_quiet_invariant n r)).
  - intros st w H. exact H.
  - intros st ev Hev [H1 H2]. split; [exact H1|]. cbn [trace with_event].
    apply Forall_app. split; [exact H2|]. repeat constructor.
    intros b ->. discriminate.
  - intros m b _ st [H1 H2]. destruct (decide (m = n)) as [->|Hne].
    + rewrite process_pr_declined
        by now apply (completed_not_admitted _ _ r).
      split; [exact H1|]. cbn [snd checked trace with_event].
      rewrite !Forall_app. repeat split; try exact H2;
        repeat constructor; intros b' Heq; discriminate.
    + split; [now rewrite process_pr_other_rows by congruence|].
      destruct (process_pr_events_keyed E m b st) as (evs & -> & Hevs).
      apply Forall_app. split; [exact H2|].
      eapply Forall_impl; [exact Hevs|].
      intros ev Hev b' ->. cbn in Hev. congruence.
Qed.

(** While every request that [main] can select is completed, the loop is
    idle and the table stays as it is. *)
Lemma idle_main_loop table cycles :
  (forall m, selectable E m -> status <$> table !! m = Some "completed"%string) ->
  preserved (idle_invariant table) (main_loop E cycles).
Proof.
  intros Hall.
  apply (preserved_main_loop_selectable E (idle_invariant table)).
  - intros st w H. exact H.
  - intros st ev Hev [H1 H2]. split; [exact H1|]. cbn [trace with_event].
    apply Forall_app. split; [exact H2 | now repeat constructor].
  - intros m b Hm st [H1 H2]. rewrite process_pr_declined.
    + split; [exact H1|]. cbn [snd checked trace with_event].
      rewrite !Forall_app. repeat split; try exact H2; now repeat constructor.
    + rewrite H1, (Hall m Hm). reflexivity.
Qed.

(** C2.  No operation of the daemon takes a request out of ['completed']:
    through any number of cycles, in any world, the row of a completed
    request stays exactly as it was, no write addresses it, so it is
    never moved back to ['processing'], and the pipeline is never entered
    for it.  Consequently, when every request that [main] can select (one
    the remote lists as open with a FASTA file among its changed files)
    is completed in the table, the cycles leave the table unchanged and
    never enter the pipeline; open requests without a FASTA file need no
    row. *)
Theorem completed_never_reprocessed
    (cycles : nat) (w : W) (table : store) (n : Z) (r : row) :
  table !! n = Some r ->
  status r = "completed"%string ->
  let st := snd (main_loop E cycles {| world := w; db := table; trace := [] |}) in
  db st !! n = Some r /\
  (forall ev r', In ev (trace st) -> written ev <> Some (n, r')) /\
  (forall b, ~ In (Enter_run_validation n b) (trace st)) /\
  ((forall m, selectable E m -> status <$> table !! m = Some "completed"%string) ->
     db st = table /\
     forall ev, In ev (trace st) ->
       starts_pipeline ev = false /\ is_write ev = false).
Proof.
  intros Hn Hr st. split; [|split; [|split]].
  - now apply (completed_row_main_loop E n r Hr cycles
                 {| world := w; db := table; trace := [] |}).
  - intros ev r' Hin.
    destruct (completed_row_main_loop E n r Hr cycles
                {| world := w; db := table; trace := [] |}) as [_ H];
      [now split|].
    fold st in H. rewrite List.Forall_forall in H. now apply H.
  - intros b Hin.
    destruct (completed_quiet_main_loop n r cycles Hr
                {| world := w; db := table; trace := [] |}) as [_ H];
      [now split|].
    fold st in H. rewrite List.Forall_forall in H. now apply (H _ Hin b).
  - intros Hall.
    destruct (idle_main_loop table cycles Hall
                {| world := w; db := table; trace := [] |}) as [H1 H2];
      [now split|].
    fold st in H1, H2. split; [exact H1|].
    intros ev Hin. rewrite List.Forall_forall in H2. apply idle_quiet. now apply H2.
Qed.

End CompletedThroughLoop.

Lemma scripted_selectable_two_requests m :
  selectable (Scripted.env Scripted.two_requests) m -> m = 42.
Proof.
  intros [(w & prs & pr & Hprs & Hin & <-) (w' & files & Hfiles & Hsel)].
  simpl in Hprs. injection Hprs as <-.
  destruct Hin as [<- | [<- | []]]; [reflexivity|].
  simpl in Hfiles. injection Hfiles as <-. discriminate Hsel.
Qed.

(** C2 on the scripted world with two open requests: request 42 is
    completed, request 43 changes no FASTA file and has no row; two more
    cycles change nothing and validate nothing. *)
Lemma completed_never_reprocessed_witness :
  let table : store := {[ 42 := {| status := "completed"; last_updated := 1012 |} ]} in
  let st := snd (main_loop (Scripted.env Scripted.two_requests) 2
                   (Scripted.start 2000 table)) in
  table !! 43 = None /\
  db st !! 42 = Some {| status := "completed"; last_updated := 1012 |} /\
  (forall ev r', In ev (trace st) -> written ev <> Some (42, r')) /\
  (forall b, ~ In (Enter_run_validation 42 b) (trace st)) /\
  db st = table /\
  forall ev, In ev (trace st) -> starts_pipeline ev = false /\ is_write ev = false.
Proof.
  intros table st.
  destruct (completed_never_reprocessed (Scripted.env Scripted.two_requests) 2 2000
              table 42 {| status := "completed"; last_updated := 1012 |}
              eq_refl eq_refl) as (H1 & H2 & H3 & H4).
  split; [reflexivity|]. split; [exact H1|]. split; [exact H2|].
  split; [exact H3|].
  apply H4. intros m Hm. apply scripted_selectable_two_requests in Hm.
  subst m. reflexivity.
Defined.
